(** * prysm: transfer functions, coordinates and the detector model

    A shallow embedding of
      - [prysm/detector.py]    (class [Detector]),
      - [code6/otf.py]         (class [MTF], [diffraction_limited_mtf]),
      - [prysm/coordinates.py] ([cart_to_polar], [polar_to_cart]),
    together with the few numpy operations these rely on.

    Number model.  The detector only adds, divides and rounds, so its
    samples are rationals ([Q]) and every definition of the detector
    evaluates.  The transfer-function code needs [cos], [sin], [sqrt],
    [arccos] and [atan2], so it is modelled over the real numbers ([R]) of
    the Standard Library; the outcome of a numpy division is a [npfloat],
    which keeps numpy's [nan] and [inf] apart from the finite values. *)

From Stdlib Require Import String Ascii.
From Stdlib Require Import ZArith QArith Qround List Bool Lia.
From Stdlib Require Import Reals Lra.
Import ListNotations.

(** ** Python results: a value or a raised exception *)

Inductive pyerr : Set :=
| ZeroDivisionError
| ValueError
| IndexError
| AttributeError
| TypeError.

Inductive result (A : Type) : Type :=
| Ok (a : A)
| Raise (e : pyerr).

Arguments Ok {A} a.
Arguments Raise {A} e.

Definition rbind {A B : Type} (r : result A) (k : A -> result B) : result B :=
  match r with
  | Ok a => k a
  | Raise e => Raise e
  end.

Declare Scope py_scope.
Delimit Scope py_scope with py.
Notation "x <- r ;; k" := (rbind r (fun x => k))
  (at level 61, r at next level, right associativity) : py_scope.

(** ** Python sequences: indexing and slicing *)

Module Py.

Section Sequences.
Context {A : Type}.

Definition len (l : list A) : Z := Z.of_nat (length l).

(** [l[i]]: a negative index counts from the end; out of range raises. *)
Definition index (l : list A) (i : Z) : result A :=
  let j := if (i <? 0)%Z then (i + len l)%Z else i in
  if (j <? 0)%Z then Raise IndexError
  else match nth_error l (Z.to_nat j) with
       | Some a => Ok a
       | None => Raise IndexError
       end.

(** A slice bound: negative bounds count from the end, and the bound is
    clamped to [0, len]. *)
Definition bound (n i : Z) : Z :=
  if (i <? 0)%Z then Z.max 0 (i + n) else Z.min i n.

(** [l[lo:hi]] *)
Definition slice (lo hi : Z) (l : list A) : list A :=
  let a := bound (len l) lo in
  let b := bound (len l) hi in
  firstn (Z.to_nat (b - a)) (skipn (Z.to_nat a) l).

(** [l[lo:]] *)
Definition slice_from (lo : Z) (l : list A) : list A :=
  skipn (Z.to_nat (bound (len l) lo)) l.

End Sequences.

(** [str.lower()] on ASCII strings. *)
Definition lower_ascii (c : ascii) : ascii :=
  let n := nat_of_ascii c in
  if (65 <=? n)%nat && (n <=? 90)%nat then ascii_of_nat (n + 32) else c.

Fixpoint lower (s : string) : string :=
  match s with
  | EmptyString => EmptyString
  | String c s' => String (lower_ascii c) (lower s')
  end.

End Py.

(** ** The numpy array operations used by the detector *)

Module Np.

Definition array2 := list (list Q).
Definition array4 := list (list (list (list Q))).

(** [a[r0:r1, c0:c1]] on a two-dimensional array. *)
Definition slice2 (r0 r1 c0 c1 : Z) (a : array2) : array2 :=
  map (Py.slice c0 c1) (Py.slice r0 r1 a).

(** [k] consecutive chunks of [n] elements each. *)
Fixpoint chunks {A : Type} (k n : nat) (l : list A) : list (list A) :=
  match k with
  | O => []
  | S k' => firstn n l :: chunks k' n (skipn n l)
  end.

(** [a.reshape(d0, d1, d2, d3)] in C order: the elements are read row by
    row and regrouped; a size that does not match raises [ValueError].
    No dimension is inferred: sample counts are never negative, so a [-1]
    placeholder does not occur, and negative dimensions raise. *)
Definition reshape4 (d0 d1 d2 d3 : Z) (a : array2) : result array4 :=
  let flat := concat a in
  if (d0 <? 0)%Z || (d1 <? 0)%Z || (d2 <? 0)%Z || (d3 <? 0)%Z then Raise ValueError
  else if negb (Py.len flat =? d0 * d1 * d2 * d3)%Z then Raise ValueError
  else
    let n0 := Z.to_nat d0 in let n1 := Z.to_nat d1 in
    let n2 := Z.to_nat d2 in let n3 := Z.to_nat d3 in
    Ok (map (fun block =>
               map (fun plane => chunks n2 n3 plane)
                   (chunks n1 (n2 * n3) block))
            (chunks n0 (n1 * n2 * n3) flat)).

Definition Qsum (l : list Q) : Q := fold_right Qplus 0%Q l.

(** [a.mean(axis=(1, 3))] on an array of shape [(d0, d1, d2, d3)]: entry
    [(i, j)] is the sum of [a[i, :, j, :]] divided by the count [d1 * d3]
    (positive wherever [sample_psf] gets this far). *)
Definition mean13 (d1 d2 d3 : Z) (a : array4) : array2 :=
  map (fun block =>
         map (fun j =>
                (Qsum (map (fun plane => Qsum (nth j plane [])) block)
                 / inject_Z (d1 * d3))%Q)
             (seq 0 (Z.to_nat d2)))
      a.

End Np.

(** ** prysm/detector.py: class [Detector] *)

Module Detector.

Local Open Scope Z_scope.
Local Open Scope py_scope.

(** [prysm.psf.PSF] as the detector constructs and reads it: the sampled
    data (first axis x, second axis y), the sample spacing and the sample
    counts of the two axes. *)
Record PSF : Type := mkPSF {
  psf_data : Np.array2;
  psf_sample_spacing : Q;
  psf_samples_x : Z;
  psf_samples_y : Z
}.

(** [prysm.objects.Image] as the detector constructs it. *)
Record Image : Type := mkImage {
  img_data : Np.array2;
  img_sample_spacing : Q
}.

(** An entry of the capture buffer. *)
Inductive capture : Type :=
| CapPSF (p : PSF)
| CapImage (i : Image).

(** [Detector.__init__] *)
Record Detector : Type := mkDetector {
  pixel_size : Q;
  resolution : Z * Z;
  bit_depth : Z;
  captures : list capture
}.

Definition init (pixel_size : Q) (resolution : Z * Z) (nbits : Z) : Detector :=
  mkDetector pixel_size resolution nbits [].

(** A method of the detector: it returns a value or raises, and leaves the
    detector in a (possibly updated) state either way. *)
Definition M (A : Type) : Type := Detector -> result A * Detector.

(** [self.captures.append(c)] *)
Definition append (c : capture) (self : Detector) : Detector :=
  mkDetector (pixel_size self) (resolution self) (bit_depth self)
             (captures self ++ [c]).

(** Modelled from the spec: [prysm.util.is_odd] is not under src/; it is
    the parity test of the spec's even/odd residual rule. *)
Definition is_odd (n : Z) : bool := Z.odd n.

(** [a // b] on Python integers. *)
Definition floordiv (a b : Z) : result Z :=
  if b =? 0 then Raise ZeroDivisionError else Ok (a / b).

(** [a / b] on Python floats. *)
Definition truediv (a b : Q) : result Q :=
  if Qeq_bool b 0 then Raise ZeroDivisionError else Ok (a / b)%Q.

(** The trimming of [sample_psf], lines 39 to 57: the block of the PSF data
    that is kept, for [samples_per_pixel] samples per pixel and
    [total_samples_x] by [total_samples_y] pixels. *)
Definition trim (psf : PSF)
    (samples_per_pixel total_samples_x total_samples_y : Z) : Np.array2 :=
  let final_idx_x := total_samples_x * samples_per_pixel in
  let final_idx_y := total_samples_y * samples_per_pixel in
  let residual_x := psf_samples_x psf - final_idx_x in
  let residual_y := psf_samples_y psf - final_idx_y in
  if negb (is_odd residual_x) then
    let samples_to_trim_x := residual_x / 2 in
    let samples_to_trim_y := residual_y / 2 in
    Np.slice2 samples_to_trim_x (final_idx_x + samples_to_trim_x)
              samples_to_trim_y (final_idx_y + samples_to_trim_y)
              (psf_data psf)
  else
    let samples_tmp_x := (inject_Z residual_x / 2)%Q in
    let samples_tmp_y := (inject_Z residual_y / 2)%Q in
    let samples_top := Qceiling samples_tmp_y in
    let samples_bottom := Qceiling samples_tmp_y in
    let samples_left := Qceiling samples_tmp_x in
    let samples_right := Qfloor samples_tmp_x in
    Np.slice2 samples_left (final_idx_x + samples_right)
              samples_bottom (final_idx_y + samples_top)
              (psf_data psf).

(** The rebinning of [sample_psf], lines 34 to 67: everything up to the
    construction of the new PSF. *)
Definition rebin (self : Detector) (psf : PSF) : result PSF :=
  ratio <- truediv (pixel_size self) (psf_sample_spacing psf) ;;
  let samples_per_pixel := Qceiling ratio in
  total_samples_x <- floordiv (psf_samples_x psf) samples_per_pixel ;;
  total_samples_y <- floordiv (psf_samples_y psf) samples_per_pixel ;;
  let trimmed_data :=
    trim psf samples_per_pixel total_samples_x total_samples_y in
  intermediate_view <-
    Np.reshape4 total_samples_x samples_per_pixel
                total_samples_y samples_per_pixel trimmed_data ;;
  let output_data :=
    Np.mean13 samples_per_pixel total_samples_y samples_per_pixel
              intermediate_view in
  Ok (mkPSF output_data (pixel_size self) total_samples_x total_samples_y).

(** [Detector.sample_psf]: the new PSF is appended to the captures and
    returned (it is [self.captures[-1]]); an exception leaves the captures
    as they were. *)
Definition sample_psf (psf : PSF) : M PSF := fun self =>
  match rebin self psf with
  | Ok p => (Ok p, append (CapPSF p) self)
  | Raise e => (Raise e, self)
  end.

Section WithImage.

(** [Image.as_psf] belongs to [prysm.objects], which is not under src/;
    the detector only passes its result on. *)
Variable as_psf : Image -> PSF.

(** [Detector.sample_image] *)
Definition sample_image (image : Image) : M Image := fun self =>
  match sample_psf (as_psf image) self with
  | (Ok intermediate_psf, self') =>
      let img := mkImage (psf_data intermediate_psf)
                         (psf_sample_spacing intermediate_psf) in
      (Ok img, append (CapImage img) self')
  | (Raise e, self') => (Raise e, self')
  end.

End WithImage.

(** The [which] argument of [save_image] and [show_image], by its Python
    type. *)
Inductive pyval : Type :=
| PyStr (s : string)
| PyInt (n : Z)
| PyNone.

(** [which.lower()]: only a string has the method. *)
Definition which_lower (which : pyval) : result string :=
  match which with
  | PyStr s => Ok (Py.lower s)
  | PyInt _ | PyNone => Raise AttributeError
  end.

(** [type(which) is int] *)
Definition type_is_int (which : pyval) : option Z :=
  match which with
  | PyInt n => Some n
  | PyStr _ | PyNone => None
  end.

(** The call [capture.save(path, bit_depth)] that [save_image] ends in. *)
Inductive saved : Type :=
| Saved (c : capture) (path : string) (nbits : Z).

(** [Detector.save_image] *)
Definition save_image (path : string) (which : pyval) : M saved := fun self =>
  (w <- which_lower which ;;
   if String.eqb w "last" then
     c <- Py.index (captures self) (-1) ;;
     Ok (Saved c path (bit_depth self))
   else
     match type_is_int which with
     | Some n =>
         c <- Py.index (captures self) n ;;
         Ok (Saved c path (bit_depth self))
     | None => Raise ValueError
     end,
   self).

(** What [show_image] returns: the figure and axis of [capture.show], or,
    when no branch is taken, the [fig] and [ax] it was given. *)
Inductive shown : Type :=
| Shown (c : capture)
| Unchanged.

(** [Detector.show_image] *)
Definition show_image (which : pyval) : M shown := fun self =>
  (w <- which_lower which ;;
   if String.eqb w "last" then
     c <- Py.index (captures self) (-1) ;;
     Ok (Shown c)
   else
     match type_is_int which with
     | Some n =>
         c <- Py.index (captures self) n ;;
         Ok (Shown c)
     | None => Ok Unchanged
     end,
   self).

(** The operations of a detector, and the state each leaves behind
    (whether it returns or raises). *)
Inductive op : Type :=
| OpSamplePsf (psf : PSF)
| OpSampleImage (image : Image)
| OpSaveImage (path : string) (which : pyval)
| OpShowImage (which : pyval).

Section Run.

Variable as_psf : Image -> PSF.

Definition exec (o : op) (self : Detector) : Detector :=
  match o with
  | OpSamplePsf psf => snd (sample_psf psf self)
  | OpSampleImage image => snd (sample_image as_psf image self)
  | OpSaveImage path which => snd (save_image path which self)
  | OpShowImage which => snd (show_image which self)
  end.

Definition run (os : list op) (self : Detector) : Detector :=
  fold_left (fun d o => exec o d) os self.

End Run.

End Detector.

(** ** prysm/coordinates.py *)

Module Coordinates.

Local Open Scope R_scope.

(** [numpy.arctan2] on real numbers (there is no signed zero here). *)
Definition atan2 (y x : R) : R :=
  if Rlt_dec 0 x then atan (y / x)
  else if Rlt_dec x 0 then
    if Rle_dec 0 y then atan (y / x) + PI else atan (y / x) - PI
  else if Rlt_dec 0 y then PI / 2
  else if Rlt_dec y 0 then - (PI / 2)
  else 0.

Definition cart_to_polar (x y : R) : R * R :=
  let rho := sqrt (x ^ 2 + y ^ 2) in
  let phi := atan2 y x in
  (rho, phi).

Definition polar_to_cart (rho phi : R) : R * R :=
  let x := rho * cos phi in
  let y := rho * sin phi in
  (x, y).

End Coordinates.

(** ** code6/otf.py *)

Module Otf.

Local Open Scope R_scope.
Local Open Scope py_scope.

(** A numpy float after a division: finite, [nan], or an infinity. *)
Inductive npfloat : Type :=
| fin (r : R)
| nan
| inf (negative : bool).

(** [x / y] on numpy floats with finite operands: dividing by zero gives
    [nan] or an infinity (with a warning), it does not raise. *)
Definition np_div (x y : R) : npfloat :=
  if Req_dec_T y 0 then
    if Req_dec_T x 0 then nan
    else if Rlt_dec 0 x then inf false else inf true
  else fin (x / y).

(** [x / y] on Python floats. *)
Definition py_div (x y : R) : result R :=
  if Req_dec_T y 0 then Raise ZeroDivisionError else Ok (x / y).

(** Complex numbers, as the pair of the real and the imaginary part. *)
Definition C : Type := R * R.

Definition Cadd (a b : C) : C := (fst a + fst b, snd a + snd b).
Definition Cscale (x : R) (z : C) : C := (x * fst z, x * snd z).
Definition Cexp_i (t : R) : C := (cos t, sin t).
Definition Cabs (z : C) : R := sqrt (fst z ^ 2 + snd z ^ 2).
Definition Csum (l : list C) : C := fold_right Cadd (0, 0) l.

Definition enumerate {A : Type} (l : list A) : list (nat * A) :=
  combine (seq 0 (length l)) l.

(** The shape of a two-dimensional array. *)
Definition nrows {A : Type} (a : list (list A)) : nat := length a.
Definition ncols {A : Type} (a : list (list A)) : nat :=
  match a with
  | [] => O
  | r :: _ => length r
  end.

(** Entry [(k, l)] of the discrete Fourier transform of an [M] by [N]
    array: the sum of [a[m, n] * exp(-2 pi i (k m / M + l n / N))]. *)
Definition dft2_entry (a : list (list R)) (k l : nat) : C :=
  let M := INR (nrows a) in
  let N := INR (ncols a) in
  Csum (map (fun '(m, row) =>
               Csum (map (fun '(n, x) =>
                            Cscale x (Cexp_i (- (2 * PI * (INR k * INR m / M
                                                       + INR l * INR n / N)))))
                         (enumerate row)))
            (enumerate a)).

(** [numpy.fft.fft2]; an axis without data points raises. *)
Definition fft2 (a : list (list R)) : result (list (list C)) :=
  if (nrows a =? 0)%nat || (ncols a =? 0)%nat then Raise ValueError
  else Ok (map (fun k => map (fun l => dft2_entry a k l) (seq 0 (ncols a)))
               (seq 0 (nrows a))).

(** [numpy.fft.fftshift] along one axis: a roll by [n // 2]. *)
Definition fftshift1 {A : Type} (l : list A) : list A :=
  let n := length l in
  skipn (n - n / 2) l ++ firstn (n - n / 2) l.

(** [numpy.fft.fftshift] of a two-dimensional array (both axes). *)
Definition fftshift {A : Type} (a : list (list A)) : list (list A) :=
  fftshift1 (map fftshift1 a).

(** [a[i, j]] *)
Definition index2 {A : Type} (a : list (list A)) (i j : Z) : result A :=
  row <- Py.index a i ;; Py.index row j.

(** The sum of all samples of a two-dimensional array. *)
Definition Rsum (l : list R) : R := fold_right Rplus 0 l.
Definition total (a : list (list R)) : R := Rsum (map Rsum a).

(** [code6.psf.PSF] as [MTF.from_psf] reads it. *)
Record PSF : Type := mkPSF {
  psf_data : list (list R);
  psf_sample_spacing : R;
  psf_samples : Z;
  psf_center : Z
}.

(** Modelled from the spec: [forward_ft_unit] of [code6.fttools], which
    is not under src/: an array of length [N] giving the FFT-shifted
    frequency axis of spacing [1 / (N * sample_spacing)], centred so that
    index [floor(N/2)] maps to 0. *)
Definition forward_ft_unit (sample_spacing : R) (samples : Z) : list R :=
  map (fun i => (INR i - IZR (samples / 2)) / (IZR samples * sample_spacing))
      (seq 0 (Z.to_nat samples)).

(** The interpolant of [scipy.interpolate.RectBivariateSpline]: its [ev]. *)
Definition spline : Type := R -> R -> npfloat.

(** An [MTF] instance; [mtf_interpf] is [None] until the attribute
    [interpf] is set. *)
Record MTF : Type := mkMTF {
  mtf_data : list (list npfloat);
  mtf_unit : list R;
  mtf_samples : Z;
  mtf_center : Z;
  mtf_interpf : option spline
}.

(** [MTF.__init__]; [int(floor(samples / 2))] is the floor division by 2. *)
Definition MTF_init (data : list (list npfloat)) (unit : list R) : MTF :=
  let samples := Py.len unit in
  mkMTF data unit samples (samples / 2)%Z None.

(** A method of an [MTF]: the value or exception, and the instance after
    the call. *)
Definition M (A : Type) : Type := MTF -> result A * MTF.

(** [MTF.tan] *)
Definition tan (self : MTF) : result (list R * list npfloat) * MTF :=
  (let u := Py.slice (mtf_center self) (-1) (mtf_unit self) in
   row <- Py.index (mtf_data self) (mtf_center self) ;;
   Ok (u, Py.slice (mtf_center self) (-1) row),
   self).

(** Column [j] of a list of rows. *)
Definition column {A : Type} (j : Z) (rows : list (list A)) : result (list A) :=
  fold_right (fun row acc => x <- Py.index row j ;; xs <- acc ;; Ok (x :: xs))
             (Ok []) rows.

(** Whether [j] is a valid index for an axis of [n] entries. *)
Definition in_axis (n j : Z) : bool :=
  let j' := if (j <? 0)%Z then (j + n)%Z else j in
  (0 <=? j')%Z && (j' <? n)%Z.

(** [a[lo:hi, j]]: the index [j] is checked against the second axis. *)
Definition column_slice {A : Type} (lo hi j : Z) (a : list (list A))
  : result (list A) :=
  if in_axis (Z.of_nat (ncols a)) j then column j (Py.slice lo hi a)
  else Raise IndexError.

(** [MTF.sag] *)
Definition sag (self : MTF) : result (list R * list npfloat) * MTF :=
  (let u := Py.slice (mtf_center self) (-1) (mtf_unit self) in
   col <- column_slice (mtf_center self) (-1) (mtf_center self) (mtf_data self) ;;
   Ok (u, col),
   self).

(** [MTF.from_psf] *)
Definition from_psf (psf : PSF) : result MTF :=
  spectrum <- fft2 (psf_data psf) ;;
  let dat := map (map Cabs) (fftshift spectrum) in
  let unit := forward_ft_unit (psf_sample_spacing psf) (psf_samples psf) in
  peak <- index2 dat (psf_center psf) (psf_center psf) ;;
  Ok (MTF_init (map (map (fun x => np_div x peak)) dat) unit).

(** The argument pairs of [exact_polar] and [exact_xy]: one number with an
    optional second number (the [int]/[float] case), or a sequence with an
    optional second sequence. *)
Inductive query : Type :=
| One (a : R) (b : option R)
| Many (a : list R) (b : option (list R)).

Inductive answer : Type :=
| Value (v : npfloat)
| Values (l : list npfloat).

Section Interpolation.

(** [scipy.interpolate.RectBivariateSpline(x, y, z)]: the constructor may
    reject its arguments. *)
Variable RectBivariateSpline :
  list R -> list R -> list (list npfloat) -> result spline.

(** [MTF._make_interp_function]: the interpolant is built on the first call
    and kept; the result is the [self.interpf] the caller then uses. *)
Definition make_interp_function : M spline := fun self =>
  match mtf_interpf self with
  | Some f => (Ok f, self)
  | None =>
      match RectBivariateSpline (mtf_unit self) (mtf_unit self) (mtf_data self) with
      | Ok f => (Ok f, mkMTF (mtf_data self) (mtf_unit self) (mtf_samples self)
                             (mtf_center self) (Some f))
      | Raise e => (Raise e, self)
      end
  end.

(** [MTF.exact_polar] *)
Definition exact_polar (q : query) : M answer := fun self =>
  match make_interp_function self with
  | (Raise e, self') => (Raise e, self')
  | (Ok interpf, self') =>
      (match q with
       | One freqs azimuths =>
           let azimuths := match azimuths with None => 0 | Some a => a end in
           let '(x, y) := Coordinates.polar_to_cart freqs azimuths in
           Ok (Value (interpf x y))
       | Many freqs azimuths =>
           let azimuths :=
             match azimuths with
             | None => repeat 0 (length freqs)
             | Some a => a
             end in
           Ok (Values (map (fun '(freq, az) =>
                              let '(x, y) := Coordinates.polar_to_cart freq az in
                              interpf x y)
                           (combine freqs azimuths)))
       end, self')
  end.

(** [MTF.exact_xy] *)
Definition exact_xy (q : query) : M answer := fun self =>
  match make_interp_function self with
  | (Raise e, self') => (Raise e, self')
  | (Ok interpf, self') =>
      (match q with
       | One x y =>
           let y := match y with None => 0 | Some b => b end in
           Ok (Value (interpf x y))
       | Many x y =>
           let y :=
             match y with
             | None => repeat 0 (length x)
             | Some b => b
             end in
           Ok (Values (map (fun '(x, y) => interpf x y) (combine x y)))
       end, self')
  end.

End Interpolation.

(** [numpy.linspace(start, stop, num)] with the end point included. *)
Definition linspace (start stop : R) (num : Z) : result (list R) :=
  if (num <? 0)%Z then Raise ValueError
  else
    let n := Z.to_nat num in
    let step := (stop - start) / INR (n - 1) in
    Ok (match n with
        | O => []
        | S O => [start]
        | S n' => map (fun i => INR i * step + start) (seq 0 n') ++ [stop]
        end).

(** [diffraction_limited_mtf] *)
Definition diffraction_limited_mtf (fno wavelength : R) (num_pts : Z)
  : result (list R * list R) :=
  normalized_frequency <- linspace 0 1 num_pts ;;
  extinction <- py_div 1 (wavelength / 1000 * fno) ;;
  let mtf :=
    map (fun f => (2 / PI) * (acos f - f * sqrt (1 - f ^ 2)))
        normalized_frequency in
  Ok (map (fun f => f * extinction) normalized_frequency, mtf).

End Otf.

(** ** The slices as the specification words them

    [tan] and [sag] as the specification describes them, the half-slices
    from the centre to the end of the axis:
    [(unit[center:], data[center, center:])] and
    [(unit[center:], data[center:, center])]. *)

Module Claimed.

Import Otf.

Local Open Scope py_scope.

Definition tan (self : MTF) : result (list R * list npfloat) :=
  let u := Py.slice_from (mtf_center self) (mtf_unit self) in
  row <- Py.index (mtf_data self) (mtf_center self) ;;
  Ok (u, Py.slice_from (mtf_center self) row).

Definition sag (self : MTF) : result (list R * list npfloat) :=
  let u := Py.slice_from (mtf_center self) (mtf_unit self) in
  col <- (if in_axis (Z.of_nat (ncols (mtf_data self))) (mtf_center self)
          then column (mtf_center self)
                      (Py.slice_from (mtf_center self) (mtf_data self))
          else Raise IndexError) ;;
  Ok (u, col).

End Claimed.

(** ** prysm/conf.py: the global configuration *)

Module Conf.

Local Open Scope Z_scope.
Local Open Scope py_scope.

(** What the global [_precision] holds: the number the module starts
    with, or the numpy type a call of [set_precision] stores. *)
Inductive float_type : Type :=
| RawPrecision (bits : Z)
| float32
| float64.

(** The same for [_precision_complex]. *)
Inductive complex_type : Type :=
| RawComplex (bits : Z)
| complex64
| complex128.

(** The module's global variables. *)
Record globals : Type := mkGlobals {
  g_precision : float_type;
  g_precision_complex : complex_type;
  g_parallel_rgb : bool;
  g_backend : string;
  g_zernike_base : Z
}.

(** Lines 5 to 9: the values the module starts with. *)
Definition module_globals : globals :=
  mkGlobals (RawPrecision 64) (RawComplex 128) true "np" 1.

(** A method of [Config]: it returns or raises, and leaves the globals in
    a (possibly updated) state either way. *)
Definition M (A : Type) : Type := globals -> result A * globals.

(** [Config.set_precision] *)
Definition set_precision (precision : Z) : M unit := fun g =>
  if negb ((precision =? 32) || (precision =? 64)) then (Raise ValueError, g)
  else if precision =? 32 then
    (Ok tt, mkGlobals float32 complex64 (g_parallel_rgb g) (g_backend g)
                      (g_zernike_base g))
  else
    (Ok tt, mkGlobals float64 complex128 (g_parallel_rgb g) (g_backend g)
                      (g_zernike_base g)).

(** [Config.set_parallel_rgb] *)
Definition set_parallel_rgb (parallel : bool) : M unit := fun g =>
  (Ok tt, mkGlobals (g_precision g) (g_precision_complex g) parallel
                    (g_backend g) (g_zernike_base g)).

(** [Config.set_backend] *)
Definition set_backend (backend : string) : M unit := fun g =>
  let b := Py.lower backend in
  if negb (String.eqb b "np" || String.eqb b "numpy") then (Raise ValueError, g)
  else (Ok tt, mkGlobals (g_precision g) (g_precision_complex g)
                         (g_parallel_rgb g) "np" (g_zernike_base g)).

(** [Config.set_zernike_base] *)
Definition set_zernike_base (base : Z) : M unit := fun g =>
  if negb ((base =? 0) || (base =? 1)) then (Raise ValueError, g)
  else (Ok tt, mkGlobals (g_precision g) (g_precision_complex g)
                         (g_parallel_rgb g) (g_backend g) base).

(** One method after another: an exception of the first ends the
    sequence, with the globals as the first left them. *)
Definition then_ (m1 m2 : M unit) : M unit := fun g =>
  match m1 g with
  | (Ok _, g') => m2 g'
  | (Raise e, g') => (Raise e, g')
  end.

(** [Config.__init__] *)
Definition init (precision : Z) (parallel_rgb : bool) (backend : string)
    (zernike_base : Z) : M unit :=
  then_ (set_precision precision)
        (then_ (set_parallel_rgb parallel_rgb)
               (then_ (set_backend backend)
                      (set_zernike_base zernike_base))).

(** Line 108, [config = Config()]: the globals once the module is loaded.
    The defaults of [__init__] are the values of lines 5 to 9. *)
Definition loaded_globals : globals :=
  snd (init 64 true "np" 1 module_globals).

(** The properties [precision], [precision_complex], [parallel_rgb],
    [backend] and [zernike_base] read the globals. *)
Definition precision (g : globals) : float_type := g_precision g.
Definition precision_complex (g : globals) : complex_type := g_precision_complex g.
Definition parallel_rgb (g : globals) : bool := g_parallel_rgb g.
Definition backend (g : globals) : string := g_backend g.
Definition zernike_base (g : globals) : Z := g_zernike_base g.

(** The calls a program can make on the configuration. *)
Inductive op : Type :=
| OpInit (precision : Z) (parallel_rgb : bool) (backend : string) (zernike_base : Z)
| OpSetPrecision (precision : Z)
| OpSetParallelRgb (parallel : bool)
| OpSetBackend (backend : string)
| OpSetZernikeBase (base : Z).

Definition exec (o : op) : M unit :=
  match o with
  | OpInit p r b z => init p r b z
  | OpSetPrecision p => set_precision p
  | OpSetParallelRgb r => set_parallel_rgb r
  | OpSetBackend b => set_backend b
  | OpSetZernikeBase z => set_zernike_base z
  end.

Definition run (os : list op) (g : globals) : globals :=
  fold_left (fun g o => snd (exec o g)) os g.


End Conf.

(** ** prysm/detector.py: the analytic kernels *)

Module Kernels.

Local Open Scope Z_scope.
Local Open Scope py_scope.

(** [np.zeros((n, m))] *)
Definition zeros (n m : Z) : result Np.array2 :=
  if (n <? 0) || (m <? 0) then Raise ValueError
  else Ok (repeat (repeat 0%Q (Z.to_nat m)) (Z.to_nat n)).

(** An index into an axis of [n] entries: negative indices count from the
    end, and an index outside the axis raises. *)
Definition axis_index (n i : Z) : result nat :=
  let j := if i <? 0 then i + n else i in
  if (j <? 0) || (n <=? j) then Raise IndexError else Ok (Z.to_nat j).

(** The list with entry [k] replaced. *)
Definition replace_nth {A : Type} (k : nat) (v : A) (l : list A) : list A :=
  firstn k l ++ match skipn k l with
                | [] => []
                | _ :: rest => v :: rest
                end.

(** [a[i, j] = v] *)
Definition set_item (a : Np.array2) (i j : Z) (v : Q) : result Np.array2 :=
  r <- axis_index (Py.len a) i ;;
  c <- axis_index (Z.of_nat (Otf.ncols a)) j ;;
  Ok (replace_nth r (replace_nth c v (nth r a [])) a).

(** [a[r0:r1, c0:c1] = v] *)
Definition set_block (a : Np.array2) (r0 r1 c0 c1 : Z) (v : Q) : Np.array2 :=
  let inside (n lo hi : Z) (k : nat) : bool :=
    (Py.bound n lo <=? Z.of_nat k) && (Z.of_nat k <? Py.bound n hi) in
  map (fun '(i, row) =>
         if inside (Py.len a) r0 r1 i
         then map (fun '(j, x) => if inside (Py.len row) c0 c1 j then v else x)
                  (Otf.enumerate row)
         else row)
      (Otf.enumerate a).

(** An [OLPF] instance: its own attributes and those of the PSF it is. *)
Record OLPF : Type := mkOLPF {
  olpf_width_x : Q;
  olpf_width_y : Q;
  olpf_data : Np.array2;
  olpf_sample_spacing : Q;
  olpf_samples : Z
}.

(** [int(np.floor(a / b))] on Python floats. *)
Definition floor_ratio (a b : Q) : result Z :=
  r <- Detector.truediv a b ;; Ok (Qfloor r).

(** [OLPF.__init__] *)
Definition OLPF_init (width_x : Q) (width_y : option Q) (sample_spacing : Q)
    (samples : Z) : result OLPF :=
  let width_y := match width_y with None => width_x | Some w => w end in
  let space_x := (width_x / 2)%Q in
  let space_y := (width_y / 2)%Q in
  shift_x <- floor_ratio space_x sample_spacing ;;
  shift_y <- floor_ratio space_y sample_spacing ;;
  let center := samples / 2 in
  data <- zeros samples samples ;;
  data <- set_item data (center - shift_x) (center - shift_y) 1 ;;
  data <- set_item data (center - shift_x) (center + shift_y) 1 ;;
  data <- set_item data (center + shift_x) (center - shift_y) 1 ;;
  data <- set_item data (center + shift_x) (center + shift_y) 1 ;;
  Ok (mkOLPF width_x width_y data sample_spacing samples).

(** A [PixelAperture] instance. *)
Record PixelAperture : Type := mkPixelAperture {
  pa_size : Q;
  pa_data : Np.array2;
  pa_sample_spacing : Q;
  pa_samples : Z
}.

(** [PixelAperture.__init__] *)
Definition PixelAperture_init (size sample_spacing : Q) (samples : Z)
  : result PixelAperture :=
  let center := samples / 2 in
  let half_width := (size / 2)%Q in
  steps <- floor_ratio half_width sample_spacing ;;
  pixel_aperture <- zeros samples samples ;;
  let pixel_aperture :=
    set_block pixel_aperture (center - steps) (center + steps)
              (center - steps) (center + steps) 1 in
  Ok (mkPixelAperture size pixel_aperture sample_spacing samples).

(** Entry [(i, j)] of an array, 0 outside of it. *)
Definition entry (a : Np.array2) (i j : nat) : Q := nth j (nth i a []) 0%Q.

End Kernels.

(** ** prysm/detector.py: the analytic transforms and [generate_mtf] *)

Module Analytic.

Local Open Scope R_scope.
Local Open Scope py_scope.

(** [np.sinc]: [sin(pi x) / (pi x)], and 1 at 0. *)
Definition sinc (x : R) : R :=
  if Req_dec_T x 0 then 1 else sin (PI * x) / (PI * x).

(** [np.meshgrid(unit_x, unit_y)]: row [i], column [j] holds
    [(unit_x[j], unit_y[i])]. *)
Definition meshgrid (unit_x unit_y : list R) : list (list (R * R)) :=
  map (fun y => map (fun x => (x, y)) unit_x) unit_y.

Section WithCast.

(** [astype(config.precision)]: the rounding of a value to the configured
    float type belongs to numpy. *)
Variable astype : Conf.float_type -> R -> R.

(** [OLPF.analytic_ft] for an OLPF of the given widths *)
Definition OLPF_analytic_ft (g : Conf.globals) (width_x width_y : R)
    (unit_x unit_y : list R) : list (list R) :=
  map (map (fun '(xq, yq) =>
              astype (Conf.precision g)
                     (cos (2 * xq * width_x / 1000) * cos (2 * yq * width_y / 1000))))
      (meshgrid unit_x unit_y).

(** [PixelAperture.analytic_ft] for an aperture of the given size *)
Definition PixelAperture_analytic_ft (g : Conf.globals) (size : R)
    (unit_x unit_y : list R) : list (list R) :=
  map (map (fun '(xq, yq) =>
              astype (Conf.precision g)
                     (sinc (xq * size / 1000) * sinc (yq * size / 1000))))
      (meshgrid unit_x unit_y).

End WithCast.


End Analytic.

(** ** Box averaging, said directly

    The mean of the [n] by [n] block [(i, j)] of an array, that is of
    [a[i*n : (i+1)*n, j*n : (j+1)*n]], and the array of these means.  This
    is what the reshape and [mean(axis=(1, 3))] of [sample_psf] are meant
    to compute; it is compared with the code below. *)

Module BoxAverage.

Definition block_sum (a : Np.array2) (n i j : nat) : Q :=
  Np.Qsum (map (fun r => Np.Qsum (firstn n (skipn (j * n) (nth (i * n + r) a []))))
               (seq 0 n)).

Definition block_mean (a : Np.array2) (n i j : nat) : Q :=
  (block_sum a n i j / inject_Z (Z.of_nat n * Z.of_nat n))%Q.

Definition block_means (a : Np.array2) (n kx ky : nat) : Np.array2 :=
  map (fun i => map (fun j => block_mean a n i j) (seq 0 ky)) (seq 0 kx).

End BoxAverage.

(** * Concrete inputs used below *)

Module Inputs.

Import Detector.

(** A detector with 2-unit pixels and an empty capture buffer. *)
Definition det2 : Detector := init 2 (1024, 1024)%Z 14.

(** A 3 by 3 PSF sampled at unit spacing. *)
Definition psf3 : PSF :=
  mkPSF [[1; 2; 3]; [4; 5; 6]; [7; 8; 9]]%Q 1 3 3.

(** A uniform 3 by 3 PSF sampled at unit spacing. *)
Definition flat3 : PSF :=
  mkPSF [[1; 1; 1]; [1; 1; 1]; [1; 1; 1]]%Q 1 3 3.

(** A 4 by 4 PSF sampled at unit spacing. *)
Definition psf4 : PSF :=
  mkPSF [[1; 2; 3; 4]; [5; 6; 7; 8]; [9; 10; 11; 12]; [13; 14; 15; 16]]%Q 1 4 4.

Definition img4 : Image := mkImage (psf_data psf4) 1.

(** An [as_psf] that reads the sample counts off the data. *)
Definition as_psf (i : Image) : PSF :=
  mkPSF (img_data i) (img_sample_spacing i)
        (Py.len (img_data i)) (Z.of_nat (Otf.ncols (img_data i))).

(** [psf4] as [det2] samples it: the means of its four 2 by 2 blocks. *)
Definition psf4_sampled : PSF :=
  mkPSF [[14 # 4; 22 # 4]; [46 # 4; 54 # 4]]%Q 2 2 2.

(** [det2] after it has sampled [psf4]. *)
Definition det2_one : Detector := append (CapPSF psf4_sampled) det2.

(** [img4] as [det2] samples it, and [det2] after that. *)
Definition img4_sampled : Image := mkImage (psf_data psf4_sampled) 2.

Definition det2_two : Detector := append (CapImage img4_sampled) det2_one.

(** A uniform 4 by 4 PSF and its rebinned version on 2-unit pixels. *)
Definition flat4 : PSF :=
  mkPSF [[1; 1; 1; 1]; [1; 1; 1; 1]; [1; 1; 1; 1]; [1; 1; 1; 1]]%Q 1 4 4.

Definition flat4_sampled : PSF :=
  mkPSF [[4 # 4; 4 # 4]; [4 # 4; 4 # 4]]%Q 2 2 2.

(** A detector whose pixels have no size. *)
Definition det0 : Detector := init 0 (1024, 1024)%Z 14.

(** A 3 by 3 MTF on the frequency axis [-1, 0, 1]. *)
Definition mtf3 : Otf.MTF :=
  Otf.MTF_init
    [[Otf.fin 0; Otf.fin (1 / 4); Otf.fin 0];
     [Otf.fin (1 / 2); Otf.fin 1; Otf.fin (1 / 2)];
     [Otf.fin 0; Otf.fin (1 / 4); Otf.fin 0]]%R
    [-1; 0; 1]%R.

(** A stand-in for the spline constructor: it accepts every grid and
    interpolates with the sum of the two coordinates. *)
Definition plane_ev : Otf.spline := fun x y => Otf.fin (x + y).

Definition plane_spline (x y : list R) (z : list (list Otf.npfloat))
  : result Otf.spline := Ok plane_ev.

(** [mtf3] once its interpolant is attached. *)
Definition mtf3_cached : Otf.MTF :=
  Otf.mkMTF (Otf.mtf_data mtf3) (Otf.mtf_unit mtf3) (Otf.mtf_samples mtf3)
            (Otf.mtf_center mtf3) (Some plane_ev).

(** A 2 by 2 PSF with a single lit sample at its centre [(1, 1)]. *)
Definition psf_point : Otf.PSF := Otf.mkPSF [[0; 0]; [0; 1]]%R 1 2 1.

(** A 2 by 2 PSF without any light. *)
Definition psf_dark : Otf.PSF := Otf.mkPSF [[0; 0]; [0; 0]]%R 1 2 1.



End Inputs.

(** * The Python and numpy operations on small inputs *)

Example slice_mid : Py.slice 1 (-1) [10; 20; 30; 40]%Z = [20; 30]%Z.
Proof. reflexivity. Qed.

Example slice_clamped : Py.slice 2 9 [10; 20; 30; 40]%Z = [30; 40]%Z.
Proof. reflexivity. Qed.

Example index_last : Py.index [10; 20; 30]%Z (-1) = Ok 30%Z.
Proof. reflexivity. Qed.

Example lower_last : Py.lower "LaSt" = "last"%string.
Proof. reflexivity. Qed.

Example reshape_2x2 :
  Np.reshape4 1 2 1 2 [[1; 2]; [3; 4]]%Q = Ok [[[[1; 2]]; [[3; 4]]]]%Q.
Proof. reflexivity. Qed.

Example mean_2x2 :
  Np.mean13 2 1 2 [[[[1; 2]]; [[3; 4]]]]%Q = [[(10 # 1) / (4 # 1)]]%Q.
Proof. vm_compute. reflexivity. Qed.

(** * Python sequences *)

Section PyFacts.

Context {A : Type}.

Lemma len_app (l1 l2 : list A) : Py.len (l1 ++ l2) = (Py.len l1 + Py.len l2)%Z.
Proof. unfold Py.len. rewrite length_app. lia. Qed.

(** After [l.append(c)], [l[-1]] is [c]. *)
Lemma index_last_app (l : list A) (c : A) : Py.index (l ++ [c]) (-1) = Ok c.
Proof.
  unfold Py.index. change (-1 <? 0)%Z with true. cbv beta iota zeta.
  rewrite len_app. unfold Py.len. simpl length.
  replace (-1 + (Z.of_nat (length l) + Z.of_nat 1))%Z with (Z.of_nat (length l)) by lia.
  destruct (Z.ltb_spec (Z.of_nat (length l)) 0); [lia|].
  rewrite Nat2Z.id, nth_error_app2 by lia.
  now rewrite Nat.sub_diag.
Qed.

End PyFacts.

(** * The detector *)

Section DetectorFacts.

Import Detector.

Lemma rebin_spacing (d : Detector) (psf p : PSF) :
  rebin d psf = Ok p -> psf_sample_spacing p = pixel_size d.
Proof.
  unfold rebin, rbind. intros H.
  destruct (truediv _ _); [|discriminate].
  destruct (floordiv (psf_samples_x psf) _); [|discriminate].
  destruct (floordiv (psf_samples_y psf) _); [|discriminate].
  destruct (Np.reshape4 _ _ _ _ _); [|discriminate].
  now inversion H.
Qed.

Lemma sample_psf_ok (d d' : Detector) (psf p : PSF) :
  sample_psf psf d = (Ok p, d') ->
  rebin d psf = Ok p /\ d' = append (CapPSF p) d.
Proof.
  unfold sample_psf. destruct (rebin d psf) as [q|e]; intros H; inversion H.
  now subst.
Qed.

Lemma sample_psf_raise (d d' : Detector) (psf : PSF) (e : pyerr) :
  sample_psf psf d = (Raise e, d') -> d' = d.
Proof.
  unfold sample_psf. destruct (rebin d psf); intros H; now inversion H.
Qed.

(** C6: the PSF that [sample_psf] returns and appends to the captures has
    the detector's pixel size as its sample spacing, and the call leaves
    the detector's [pixel_size] as it was. *)
Theorem sample_psf_keeps_pixel_size (d d' : Detector) (psf p : PSF) :
  sample_psf psf d = (Ok p, d') ->
  psf_sample_spacing p = pixel_size d
  /\ Py.index (captures d') (-1) = Ok (CapPSF p)
  /\ pixel_size d' = pixel_size d.
Proof.
  intros H. apply sample_psf_ok in H. destruct H as [Hr ->].
  split; [exact (rebin_spacing _ _ _ Hr)|].
  split; [apply index_last_app|reflexivity].
Qed.

Lemma sample_psf_keeps_pixel_size_witness :
  sample_psf Inputs.psf4 Inputs.det2 = (Ok Inputs.psf4_sampled, Inputs.det2_one)
  /\ psf_sample_spacing Inputs.psf4_sampled = pixel_size Inputs.det2
  /\ Py.index (captures Inputs.det2_one) (-1) = Ok (CapPSF Inputs.psf4_sampled)
  /\ pixel_size Inputs.det2_one = pixel_size Inputs.det2.
Proof.
  split; [reflexivity|].
  apply (sample_psf_keeps_pixel_size
           Inputs.det2 Inputs.det2_one Inputs.psf4 Inputs.psf4_sampled).
  reflexivity.
Defined.

(** ** The capture buffer only grows *)

Lemma save_image_state (path : string) (which : pyval) (d : Detector) :
  snd (save_image path which d) = d.
Proof. reflexivity. Qed.

Lemma show_image_state (which : pyval) (d : Detector) :
  snd (show_image which d) = d.
Proof. reflexivity. Qed.

Lemma sample_psf_grows (psf : PSF) (d : Detector) :
  exists new, captures (snd (sample_psf psf d)) = captures d ++ new.
Proof.
  unfold sample_psf. destruct (rebin d psf) as [p|e]; simpl.
  - now exists [CapPSF p].
  - exists []. now rewrite app_nil_r.
Qed.

Section WithImage.

Variable as_psf : Image -> PSF.

Lemma sample_image_ok (image i : Image) (d d' : Detector) :
  sample_image as_psf image d = (Ok i, d') ->
  exists p d1,
    sample_psf (as_psf image) d = (Ok p, d1)
    /\ i = mkImage (psf_data p) (psf_sample_spacing p)
    /\ d' = append (CapImage i) d1.
Proof.
  unfold sample_image.
  destruct (sample_psf (as_psf image) d) as [[p|e] d1]; intros H; inversion H.
  now exists p, d1.
Qed.

Lemma sample_image_grows (image : Image) (d : Detector) :
  exists new, captures (snd (sample_image as_psf image d)) = captures d ++ new.
Proof.
  unfold sample_image.
  destruct (sample_psf_grows (as_psf image) d) as [new Hnew].
  destruct (sample_psf (as_psf image) d) as [[p|e] d1]; simpl in *.
  - exists (new ++ [CapImage (mkImage (psf_data p) (psf_sample_spacing p))]).
    now rewrite Hnew, app_assoc.
  - now exists new.
Qed.

Lemma exec_grows (o : op) (d : Detector) :
  exists new, captures (exec as_psf o d) = captures d ++ new.
Proof.
  destruct o; simpl.
  - apply sample_psf_grows.
  - apply sample_image_grows.
  - exists []. now rewrite app_nil_r.
  - exists []. now rewrite app_nil_r.
Qed.

Lemma run_grows (os : list op) (d : Detector) :
  exists new, captures (run as_psf os d) = captures d ++ new.
Proof.
  revert d. induction os as [|o os IH]; intros d; simpl.
  - exists []. now rewrite app_nil_r.
  - destruct (IH (exec as_psf o d)) as [new2 H2].
    destruct (exec_grows o d) as [new1 H1].
    exists (new1 ++ new2). now rewrite H2, H1, app_assoc.
Qed.

(** C10: a successful [sample_psf] appends exactly one entry, the new PSF;
    a successful [sample_image] appends exactly two, the intermediate PSF
    of [sample_psf] and then the image, which is [captures[-1]]; and after
    any sequence of detector operations, whether they return or raise, the
    earlier captures are still there, in place, as a prefix of the buffer. *)
Theorem captures_append_only (d : Detector) :
  (forall psf p d',
      sample_psf psf d = (Ok p, d') ->
      captures d' = captures d ++ [CapPSF p])
  /\ (forall image i d',
         sample_image as_psf image d = (Ok i, d') ->
         exists p d1,
           sample_psf (as_psf image) d = (Ok p, d1)
           /\ captures d' = captures d ++ [CapPSF p; CapImage i]
           /\ Py.index (captures d') (-1) = Ok (CapImage i))
  /\ (forall os, exists new, captures (run as_psf os d) = captures d ++ new).
Proof.
  split; [|split].
  - intros psf p d' H. apply sample_psf_ok in H. now destruct H as [_ ->].
  - intros image i d' H.
    apply sample_image_ok in H. destruct H as (p & d1 & Hp & _ & ->).
    exists p, d1. split; [exact Hp|].
    apply sample_psf_ok in Hp. destruct Hp as [_ ->]. simpl.
    split; [now rewrite <- app_assoc|apply index_last_app].
  - intros os. apply run_grows.
Qed.

End WithImage.

Lemma captures_append_only_witness :
  captures Inputs.det2_one = captures Inputs.det2 ++ [CapPSF Inputs.psf4_sampled]
  /\ exists p d1,
       sample_psf (Inputs.as_psf Inputs.img4) Inputs.det2 = (Ok p, d1)
       /\ captures Inputs.det2_two
          = captures Inputs.det2 ++ [CapPSF p; CapImage Inputs.img4_sampled]
       /\ Py.index (captures Inputs.det2_two) (-1) = Ok (CapImage Inputs.img4_sampled).
Proof.
  split.
  - apply (proj1 (captures_append_only Inputs.as_psf Inputs.det2)
                 Inputs.psf4 Inputs.psf4_sampled Inputs.det2_one).
    reflexivity.
  - apply (proj1 (proj2 (captures_append_only Inputs.as_psf Inputs.det2))
                 Inputs.img4 Inputs.img4_sampled Inputs.det2_two).
    reflexivity.
Defined.

(** ** The [which] selector *)

(** [which = 'last'], in any letter case, selects [captures[-1]]. *)
Lemma which_last_selects (path s : string) (d : Detector) :
  Py.lower s = "last"%string ->
  fst (save_image path (PyStr s) d)
  = rbind (Py.index (captures d) (-1)) (fun c => Ok (Saved c path (bit_depth d)))
  /\ fst (show_image (PyStr s) d)
     = rbind (Py.index (captures d) (-1)) (fun c => Ok (Shown c)).
Proof.
  intros H. unfold save_image, show_image. simpl. now rewrite H.
Qed.

(** X8: Any other string, ['first'] included, raises in [save_image] and is
    passed over in [show_image]. *)
Lemma which_other_string (path s : string) (d : Detector) :
  Py.lower s <> "last"%string ->
  fst (save_image path (PyStr s) d) = Raise ValueError
  /\ fst (show_image (PyStr s) d) = Ok Unchanged.
Proof.
  intros H. unfold save_image, show_image. simpl.
  destruct (String.eqb_spec (Py.lower s) "last"); [contradiction|now split].
Qed.

(** C4 (fails on the code): an integer [which] never reaches the index
    branch.  [which.lower()] is evaluated first and an [int] has no such
    method, so both [save_image] and [show_image] raise [AttributeError]
    for every integer, whatever the captures are. *)
Theorem which_int_raises (path : string) (n : Z) (d : Detector) :
  save_image path (PyInt n) d = (Raise AttributeError, d)
  /\ show_image (PyInt n) d = (Raise AttributeError, d).
Proof. split; reflexivity. Qed.

(** The same at a detector with one capture and [which = -1]. *)
Example which_minus_one_raises :
  fst (save_image "out.png" (PyInt (-1)) Inputs.det2_one) = Raise AttributeError
  /\ Py.index (captures Inputs.det2_one) (-1) = Ok (CapPSF Inputs.psf4_sampled).
Proof. split; reflexivity. Qed.

(** ** Rebinning at an odd residual *)

(** C2 (fails on the code): a 3 by 3 PSF at unit spacing on 2-unit pixels
    has [samples_per_pixel = 2], one pixel per axis and the odd residual 1.
    The odd branch cuts [data[1:2, 1:3]]: on the x axis one sample is lost
    on the left and one on the right (not [floor(1/2) = 0]), so the block
    has 1 by 2 samples instead of 2 by 2, the reshape to [(1, 2, 1, 2)]
    raises [ValueError] and nothing is captured. *)
Theorem sample_psf_odd_residual_3x3 :
  rbind (truediv (pixel_size Inputs.det2) (psf_sample_spacing Inputs.psf3))
        (fun ratio => Ok (Qceiling ratio)) = Ok 2%Z
  /\ trim Inputs.psf3 2 1 1 = [[5; 6]]%Q
  /\ Np.reshape4 1 2 1 2 [[5; 6]]%Q = Raise ValueError
  /\ sample_psf Inputs.psf3 Inputs.det2 = (Raise ValueError, Inputs.det2).
Proof. repeat split. Qed.

(** C7 (fails on the code): the uniform 3 by 3 PSF of value 1 on 2-unit
    pixels runs into the same odd residual: [sample_psf] raises
    [ValueError] instead of returning a uniform PSF. *)
Theorem sample_psf_uniform_3x3_raises :
  Forall (Forall (fun x => x = 1%Q)) (psf_data Inputs.flat3)
  /\ sample_psf Inputs.flat3 Inputs.det2 = (Raise ValueError, Inputs.det2).
Proof.
  split; [|reflexivity].
  repeat (constructor; [repeat constructor|]). constructor.
Qed.

End DetectorFacts.

(** * Rebinning in general *)

Section SliceLengths.

Context {A : Type}.

Lemma bound_range (n i : Z) : (0 <= n -> 0 <= Py.bound n i <= n)%Z.
Proof. unfold Py.bound. destruct (Z.ltb_spec i 0); lia. Qed.

Lemma bound_inside (n i : Z) : (0 <= i <= n -> Py.bound n i = i)%Z.
Proof. unfold Py.bound. destruct (Z.ltb_spec i 0); lia. Qed.

Lemma len_nonneg (l : list A) : (0 <= Py.len l)%Z.
Proof. unfold Py.len. lia. Qed.

Lemma len_slice (lo hi : Z) (l : list A) :
  Py.len (Py.slice lo hi l)
  = Z.max 0 (Py.bound (Py.len l) hi - Py.bound (Py.len l) lo).
Proof.
  pose proof (bound_range (Py.len l) lo (len_nonneg l)).
  pose proof (bound_range (Py.len l) hi (len_nonneg l)).
  unfold Py.slice. unfold Py.len at 1.
  rewrite length_firstn, length_skipn. unfold Py.len in *. lia.
Qed.

Lemma slice_incl (lo hi : Z) (l : list A) (x : A) :
  In x (Py.slice lo hi l) -> In x l.
Proof.
  unfold Py.slice. intros H.
  rewrite <- (firstn_skipn (Z.to_nat (Py.bound (Py.len l) lo)) l).
  apply in_or_app. right.
  match type of H with
  | In _ (firstn ?k ?t) => rewrite <- (firstn_skipn k t)
  end.
  apply in_or_app. now left.
Qed.

Lemma Forall_slice (P : A -> Prop) (lo hi : Z) (l : list A) :
  Forall P l -> Forall P (Py.slice lo hi l).
Proof.
  rewrite !Forall_forall. intros H x Hx. apply H. eapply slice_incl; eauto.
Qed.

Lemma len_concat_uniform (w : Z) (rows : list (list A)) :
  Forall (fun r => Py.len r = w) rows ->
  Py.len (concat rows) = (Py.len rows * w)%Z.
Proof.
  induction 1 as [|r rows Hr _ IH].
  - reflexivity.
  - cbn [concat]. rewrite len_app, IH, Hr. unfold Py.len. cbn [length]. lia.
Qed.

End SliceLengths.

Section RebinArithmetic.

Local Open Scope Z_scope.

Lemma Qfloor_half (r : Z) : Qfloor (inject_Z r / 2) = r / 2.
Proof.
  unfold Qfloor, Qdiv, Qmult, Qinv, inject_Z. simpl. now rewrite Z.mul_1_r.
Qed.

Lemma Qceiling_half (r : Z) : Qceiling (inject_Z r / 2) = (r + 1) / 2.
Proof.
  unfold Qceiling, Qfloor, Qopp, Qdiv, Qmult, Qinv, inject_Z. simpl.
  rewrite Z.mul_1_r. apply Z.opp_inj. rewrite Z.opp_involutive.
  pose proof (Z.div_mod (- r) 2). pose proof (Z.mod_pos_bound (- r) 2).
  pose proof (Z.div_mod (r + 1) 2). pose proof (Z.mod_pos_bound (r + 1) 2).
  lia.
Qed.

(** The pixels and the residual of an axis of [s] samples. *)
Lemma residual_range (s spp : Z) :
  0 < spp -> spp <= s ->
  let total := s / spp in
  let final_idx := total * spp in
  1 <= total /\ 0 <= s - final_idx < spp /\ s - final_idx = s mod spp.
Proof.
  intros Hp Hs total final_idx. unfold final_idx, total.
  pose proof (Z.div_mod s spp). pose proof (Z.mod_pos_bound s spp).
  assert (1 <= s / spp) by (apply Z.div_le_lower_bound; lia).
  nia.
Qed.

(** The odd branch on the x axis: one row too few. *)
Lemma odd_rows (s final_idx r : Z) :
  0 <= final_idx -> s = final_idx + r -> 0 <= r -> Z.odd r = true ->
  Z.max 0 (Py.bound s (final_idx + r / 2) - Py.bound s ((r + 1) / 2))
  = Z.max 0 (final_idx - 1).
Proof.
  intros Hf Hs Hr Ho.
  rewrite <- Z.negb_even in Ho. apply negb_true_iff in Ho.
  pose proof (Zmod_even r) as Hm. rewrite Ho in Hm.
  pose proof (Z.div_mod r 2). pose proof (Z.div_mod (r + 1) 2).
  pose proof (Z.mod_pos_bound (r + 1) 2).
  rewrite !bound_inside by lia. lia.
Qed.

(** The y axis of the odd branch, and both axes of the even branch, keep
    [final_idx] samples. *)
Lemma kept_length (s final_idx r t : Z) :
  0 <= final_idx -> s = final_idx + r -> 0 <= t <= r ->
  Z.max 0 (Py.bound s (final_idx + t) - Py.bound s t) = final_idx.
Proof.
  intros Hf Hs Ht. rewrite !bound_inside by lia. lia.
Qed.

End RebinArithmetic.

Section RebinGeneral.

Import Detector.

Local Open Scope Z_scope.

(** The number of samples in a block cut out of a [sx] by [sy] array. *)
Lemma len_concat_slice2 (r0 r1 c0 c1 : Z) (a : Np.array2) (sx sy : Z) :
  Py.len a = sx ->
  Forall (fun row => Py.len row = sy) a ->
  Py.len (concat (Np.slice2 r0 r1 c0 c1 a))
  = Z.max 0 (Py.bound sx r1 - Py.bound sx r0)
    * Z.max 0 (Py.bound sy c1 - Py.bound sy c0).
Proof.
  intros Hx Hy. unfold Np.slice2.
  rewrite (len_concat_uniform (Z.max 0 (Py.bound sy c1 - Py.bound sy c0))).
  - unfold Py.len at 1. rewrite length_map. fold (Py.len (Py.slice r0 r1 a)).
    now rewrite len_slice, Hx.
  - apply Forall_map. apply Forall_slice.
    eapply Forall_impl; [|exact Hy].
    intros row Hrow. simpl in Hrow. now rewrite len_slice, Hrow.
Qed.

(** A reshape to a different number of samples raises. *)
Lemma reshape4_mismatch (d0 d1 d2 d3 : Z) (a : Np.array2) :
  Py.len (concat a) <> d0 * d1 * d2 * d3 ->
  Np.reshape4 d0 d1 d2 d3 a = Raise ValueError.
Proof.
  intros H. unfold Np.reshape4.
  destruct (_ || _); [reflexivity|].
  destruct (Z.eqb_spec (Py.len (concat a)) (d0 * d1 * d2 * d3)); [contradiction|].
  reflexivity.
Qed.

(** X1: The defect behind C2 and C7, in general: for a PSF whose data has the
    shape its sample counts announce, with at least one pixel on each axis,
    an odd residual on the x axis always ends in [ValueError], and nothing
    is captured. *)
Lemma sample_psf_odd_residual_raises (d : Detector) (psf : PSF) :
  let spp := Qceiling (pixel_size d / psf_sample_spacing psf) in
  ~ (psf_sample_spacing psf == 0)%Q ->
  Py.len (psf_data psf) = psf_samples_x psf ->
  Forall (fun row => Py.len row = psf_samples_y psf) (psf_data psf) ->
  0 < spp -> spp <= psf_samples_x psf -> spp <= psf_samples_y psf ->
  Z.odd (psf_samples_x psf mod spp) = true ->
  sample_psf psf d = (Raise ValueError, d).
Proof.
  intros spp Hs Hx Hy Hp Hsx Hsy Hodd.
  unfold sample_psf, rebin, truediv, floordiv.
  destruct (Qeq_bool (psf_sample_spacing psf) 0) eqn:E;
    [apply Qeq_bool_eq in E; contradiction|].
  cbn [rbind]. fold spp.
  destruct (Z.eqb_spec spp 0); [lia|]. cbn [rbind].
  rewrite reshape4_mismatch; [reflexivity|].
  destruct (residual_range (psf_samples_x psf) spp Hp Hsx) as (Htx & Hrx & Hmx).
  destruct (residual_range (psf_samples_y psf) spp Hp Hsy) as (Hty & Hry & _).
  unfold trim, is_odd. rewrite Hmx, Hodd. cbn [negb].
  rewrite (len_concat_slice2 _ _ _ _ _ _ _ Hx Hy).
  rewrite !Qceiling_half, Qfloor_half, <- Hmx.
  set (fx := psf_samples_x psf / spp * spp) in *.
  set (fy := psf_samples_y psf / spp * spp) in *.
  set (rx := psf_samples_x psf - fx) in *.
  set (ry := psf_samples_y psf - fy) in *.
  assert (Hfx : 1 <= fx) by (unfold fx; nia).
  assert (Hfy : 1 <= fy) by (unfold fy; nia).
  rewrite (odd_rows (psf_samples_x psf) fx rx);
    [|lia|unfold rx; lia|lia|now rewrite Hmx].
  rewrite (kept_length (psf_samples_y psf) fy ry ((ry + 1) / 2));
    [|lia|unfold ry; lia|].
  - fold fx fy. nia.
  - pose proof (Z.div_mod (ry + 1) 2). pose proof (Z.mod_pos_bound (ry + 1) 2).
    lia.
Qed.

End RebinGeneral.

(** * Box averaging a uniform block *)

Section Chunks.

Context {A : Type}.

Lemma Forall_firstn (P : A -> Prop) (n : nat) (l : list A) :
  Forall P l -> Forall P (firstn n l).
Proof.
  rewrite !Forall_forall. intros H x Hx. apply H.
  rewrite <- (firstn_skipn n l). apply in_or_app. now left.
Qed.

Lemma Forall_skipn' (P : A -> Prop) (n : nat) (l : list A) :
  Forall P l -> Forall P (skipn n l).
Proof.
  rewrite !Forall_forall. intros H x Hx. apply H.
  rewrite <- (firstn_skipn n l). apply in_or_app. now right.
Qed.

Lemma chunks_length (k n : nat) (l : list A) : length (Np.chunks k n l) = k.
Proof.
  revert l. induction k as [|k IH]; intros l; simpl; [reflexivity|].
  now rewrite IH.
Qed.

Lemma chunks_Forall (P : A -> Prop) (k n : nat) (l : list A) :
  Forall P l -> Forall (Forall P) (Np.chunks k n l).
Proof.
  revert l. induction k as [|k IH]; intros l H; simpl; constructor.
  - now apply Forall_firstn.
  - apply IH. now apply Forall_skipn'.
Qed.

Lemma chunks_full (k n : nat) (l : list A) :
  (k * n <= length l)%nat ->
  Forall (fun c => length c = n) (Np.chunks k n l).
Proof.
  revert l. induction k as [|k IH]; intros l H; simpl; constructor.
  - rewrite length_firstn. simpl in H. lia.
  - apply IH. rewrite length_skipn. simpl in H. lia.
Qed.

End Chunks.

Section UniformMean.

Local Open Scope Q_scope.

Lemma Qsum_all (c : Q) (l : list Q) :
  Forall (fun x => x == c) l ->
  Np.Qsum l == inject_Z (Z.of_nat (length l)) * c.
Proof.
  induction 1 as [|x l Hx _ IH].
  - simpl. ring.
  - cbn [Np.Qsum fold_right length]. fold (Np.Qsum l).
    rewrite IH, Hx, Nat2Z.inj_succ. unfold Z.succ. rewrite inject_Z_plus. ring.
Qed.

End UniformMean.

Section UniformRebin.

Import Detector.

Local Open Scope Z_scope.

Variable v : Q.

(** The mean over the [d1] by [d3] samples of each pixel of a reshaped
    array whose samples all equal [v] is [v]. *)
Lemma mean13_uniform (d0 d1 d2 d3 : Z) (a : Np.array2) (a4 : Np.array4) :
  0 < d1 -> 0 < d3 ->
  Forall (Forall (fun x => x == v)%Q) a ->
  Np.reshape4 d0 d1 d2 d3 a = Ok a4 ->
  Forall (Forall (fun x => x == v)%Q) (Np.mean13 d1 d2 d3 a4).
Proof.
  intros H1 H3 Hv. unfold Np.reshape4.
  destruct (_ || _) eqn:Eneg; [discriminate|].
  destruct (Z.eqb_spec (Py.len (concat a)) (d0 * d1 * d2 * d3)) as [Hsize|];
    [|discriminate].
  cbn [negb]. intros H. injection H as <-.
  apply orb_false_iff in Eneg. destruct Eneg as [Eneg _].
  apply orb_false_iff in Eneg. destruct Eneg as [Eneg E2].
  apply orb_false_iff in Eneg. destruct Eneg as [E0 _].
  apply Z.ltb_ge in E0, E2.
  set (n0 := Z.to_nat d0) in *. set (n1 := Z.to_nat d1) in *.
  set (n2 := Z.to_nat d2) in *. set (n3 := Z.to_nat d3) in *.
  assert (Hflat : Forall (fun x => x == v)%Q (concat a)) by now apply Forall_concat.
  assert (Hlen : length (concat a) = (n0 * (n1 * n2 * n3))%nat).
  { unfold Py.len in Hsize. unfold n0, n1, n2, n3. nia. }
  unfold Np.mean13. apply Forall_map, Forall_map.
  pose proof (chunks_Forall _ n0 (n1 * n2 * n3) (concat a) Hflat) as Hb.
  pose proof (chunks_full n0 (n1 * n2 * n3) (concat a) ltac:(lia)) as Hbl.
  rewrite Forall_forall in *. intros b Hin.
  specialize (Hb b Hin). specialize (Hbl b Hin). cbv beta in Hbl.
  rewrite Forall_forall. intros x Hx.
  apply in_map_iff in Hx. destruct Hx as (j & <- & Hj).
  apply in_seq in Hj. fold n2 in Hj.
  rewrite map_map.
  pose proof (chunks_Forall _ n1 (n2 * n3) b Hb) as Hp.
  pose proof (chunks_full n1 (n2 * n3) b ltac:(lia)) as Hpl.
  rewrite (Qsum_all (inject_Z d3 * v)).
  - rewrite length_map, chunks_length. fold n1.
    unfold n1. rewrite Z2Nat.id by lia. rewrite inject_Z_mult.
    field. split; unfold Qeq; simpl; lia.
  - apply Forall_map. rewrite Forall_forall in *. intros p Hpin.
    specialize (Hp p Hpin). specialize (Hpl p Hpin). cbv beta in Hpl.
    pose proof (chunks_Forall _ n2 n3 p Hp) as Hr.
    pose proof (chunks_full n2 n3 p ltac:(lia)) as Hrl.
    assert (Hnth : In (nth j (Np.chunks n2 n3 p) []) (Np.chunks n2 n3 p)).
    { apply nth_In. rewrite chunks_length. lia. }
    rewrite Forall_forall in Hr, Hrl.
    rewrite (Qsum_all v); [|now apply Hr].
    rewrite (Hrl _ Hnth). unfold n3. now rewrite Z2Nat.id by lia.
Qed.

(** X4: Whenever [sample_psf] returns on a PSF whose samples all equal [v],
    every sample of the PSF it returns equals [v]. *)
Lemma sample_psf_uniform (d d' : Detector) (psf p : PSF) :
  Forall (Forall (fun x => x == v)%Q) (psf_data psf) ->
  sample_psf psf d = (Ok p, d') ->
  Forall (Forall (fun x => x == v)%Q) (psf_data p).
Proof.
  intros Hv H. apply sample_psf_ok in H. destruct H as [H _].
  unfold rebin, truediv, floordiv in H.
  destruct (Qeq_bool _ _); [discriminate|]. cbn [rbind] in H.
  set (spp := Qceiling _) in *.
  destruct (Z.eqb_spec spp 0) as [|Hne]; [discriminate|]. cbn [rbind] in H.
  destruct (Np.reshape4 _ _ _ _ _) as [a4|] eqn:Er; [|discriminate].
  cbn [rbind] in H. injection H as <-. cbn [psf_data].
  assert (Hpos : 0 < spp).
  { unfold Np.reshape4 in Er. destruct (Z.ltb_spec spp 0).
    - rewrite !orb_true_r in Er. discriminate.
    - lia. }
  apply (mean13_uniform _ _ _ _ _ _ Hpos Hpos) in Er; [exact Er|].
  unfold trim, Np.slice2.
  destruct (negb _); apply Forall_map, Forall_slice;
    (eapply Forall_impl; [|exact Hv]); intros row Hrow; now apply Forall_slice.
Qed.

End UniformRebin.

Section EvenRebin.

Import Detector.

Local Open Scope Z_scope.

Lemma residual_bounds (s spp : Z) :
  0 < spp -> 0 <= s ->
  0 <= s / spp /\ 0 <= s - s / spp * spp < spp
  /\ s - s / spp * spp = s mod spp.
Proof.
  intros Hp Hs.
  pose proof (Z.div_mod s spp). pose proof (Z.mod_pos_bound s spp).
  pose proof (Z.div_pos s spp). nia.
Qed.

Lemma half_range (r : Z) : 0 <= r -> 0 <= r / 2 <= r.
Proof.
  intros H. pose proof (Z.div_mod r 2). pose proof (Z.mod_pos_bound r 2). lia.
Qed.

Lemma reshape4_fits (d0 d1 d2 d3 : Z) (a : Np.array2) :
  0 <= d0 -> 0 <= d1 -> 0 <= d2 -> 0 <= d3 ->
  Py.len (concat a) = d0 * d1 * d2 * d3 ->
  exists a4, Np.reshape4 d0 d1 d2 d3 a = Ok a4 /\ Py.len a4 = d0.
Proof.
  intros H0 H1 H2 H3 Hsize. unfold Np.reshape4.
  destruct (Z.ltb_spec d0 0); [lia|]. destruct (Z.ltb_spec d1 0); [lia|].
  destruct (Z.ltb_spec d2 0); [lia|]. destruct (Z.ltb_spec d3 0); [lia|].
  cbn [orb]. rewrite Hsize, Z.eqb_refl. cbn [negb].
  eexists. split; [reflexivity|].
  unfold Py.len. rewrite length_map, chunks_length. lia.
Qed.

Lemma mean13_shape (d1 d2 d3 : Z) (a4 : Np.array4) :
  0 <= d2 ->
  Py.len (Np.mean13 d1 d2 d3 a4) = Py.len a4
  /\ Forall (fun row => Py.len row = d2) (Np.mean13 d1 d2 d3 a4).
Proof.
  intros H2. unfold Np.mean13, Py.len. rewrite length_map. split; [reflexivity|].
  apply Forall_map, Forall_forall. intros block _.
  rewrite length_map, length_seq. lia.
Qed.

(** X2: With an even residual on the x axis, [sample_psf] returns: the block
    it keeps has [total * samples_per_pixel] samples on each axis, starting
    [floor(residual / 2)] samples in, and the new PSF has one value per
    pixel, [total_samples_x] by [total_samples_y] of them. *)
Lemma sample_psf_even_residual_returns (d : Detector) (psf : PSF) :
  let spp := Qceiling (pixel_size d / psf_sample_spacing psf) in
  ~ (psf_sample_spacing psf == 0)%Q ->
  Py.len (psf_data psf) = psf_samples_x psf ->
  Forall (fun row => Py.len row = psf_samples_y psf) (psf_data psf) ->
  0 <= psf_samples_y psf ->
  0 < spp ->
  Z.odd (psf_samples_x psf mod spp) = false ->
  exists p,
    sample_psf psf d = (Ok p, append (CapPSF p) d)
    /\ psf_samples_x p = psf_samples_x psf / spp
    /\ psf_samples_y p = psf_samples_y psf / spp
    /\ Py.len (psf_data p) = psf_samples_x p
    /\ Forall (fun row => Py.len row = psf_samples_y p) (psf_data p).
Proof.
  intros spp Hs Hx Hy Hsy Hp Heven.
  assert (Hsx : 0 <= psf_samples_x psf) by (rewrite <- Hx; apply len_nonneg).
  destruct (residual_bounds (psf_samples_x psf) spp Hp Hsx) as (Htx & Hrx & Hmx).
  destruct (residual_bounds (psf_samples_y psf) spp Hp Hsy) as (Hty & Hry & _).
  set (tx := psf_samples_x psf / spp) in *.
  set (ty := psf_samples_y psf / spp) in *.
  assert (Hsize : Py.len (concat (trim psf spp tx ty)) = tx * spp * ty * spp).
  { unfold trim, is_odd. rewrite Hmx, Heven. cbn [negb]. rewrite <- Hmx.
    rewrite (len_concat_slice2 _ _ _ _ _ _ _ Hx Hy).
    set (rx := psf_samples_x psf - tx * spp) in *.
    set (ry := psf_samples_y psf - ty * spp) in *.
    pose proof (half_range rx ltac:(lia)). pose proof (half_range ry ltac:(lia)).
    rewrite (kept_length (psf_samples_x psf) (tx * spp) rx (rx / 2));
      [|nia|unfold rx; lia|lia].
    rewrite (kept_length (psf_samples_y psf) (ty * spp) ry (ry / 2));
      [|nia|unfold ry; lia|lia].
    ring. }
  destruct (reshape4_fits tx spp ty spp _ Htx ltac:(lia) Hty ltac:(lia) Hsize)
    as (a4 & Hr & Hl).
  unfold sample_psf, rebin, truediv, floordiv.
  destruct (Qeq_bool (psf_sample_spacing psf) 0) eqn:E;
    [apply Qeq_bool_eq in E; contradiction|].
  cbn [rbind]. fold spp.
  destruct (Z.eqb_spec spp 0); [lia|]. cbn [rbind]. fold tx ty.
  rewrite Hr. cbn [rbind].
  eexists. split; [reflexivity|]. cbn [psf_samples_x psf_samples_y psf_data].
  split; [reflexivity|]. split; [reflexivity|].
  destruct (mean13_shape spp ty spp a4 Hty) as [Hm1 Hm2].
  split; [now rewrite Hm1|exact Hm2].
Qed.

End EvenRebin.

(** * Slices *)

Section SliceFacts.

Context {A : Type}.

Lemma removelast_firstn_pred (l : list A) :
  removelast l = firstn (length l - 1) l.
Proof.
  induction l as [|x [|y l] IH]; try reflexivity.
  change (removelast (x :: y :: l)) with (x :: removelast (y :: l)).
  rewrite IH. simpl. now rewrite Nat.sub_0_r.
Qed.

(** [l[c:-1]] is [l[c:]] without its last element. *)
Lemma slice_to_minus_one (c : Z) (l : list A) :
  (0 <= c)%Z -> Py.slice c (-1) l = removelast (Py.slice_from c l).
Proof.
  intros Hc. unfold Py.slice, Py.slice_from.
  rewrite removelast_firstn_pred, length_skipn. f_equal.
  unfold Py.bound, Py.len.
  change (-1 <? 0)%Z with true. cbv iota.
  destruct (Z.ltb_spec c 0); lia.
Qed.

End SliceFacts.

Section IndexFacts.

Context {A : Type}.

Lemma index_in_range (l : list A) (i : Z) :
  (0 <= i < Py.len l)%Z -> exists x, Py.index l i = Ok x /\ In x l.
Proof.
  intros [H0 H1]. unfold Py.index.
  destruct (Z.ltb_spec i 0); [lia|].
  destruct (Z.ltb_spec i 0); [lia|].
  destruct (nth_error l (Z.to_nat i)) as [x|] eqn:E.
  - exists x. split; [reflexivity|]. eapply nth_error_In; eauto.
  - apply nth_error_None in E. unfold Py.len in H1. lia.
Qed.

Lemma column_total (j : Z) (rows : list (list A)) :
  Forall (fun r => (0 <= j < Py.len r)%Z) rows ->
  exists col, Otf.column j rows = Ok col.
Proof.
  induction 1 as [|r rows Hr _ [col IH]]; simpl.
  - now exists [].
  - destruct (index_in_range r j Hr) as (x & -> & _).
    simpl. rewrite IH. simpl. now exists (x :: col).
Qed.

Lemma column_cons_inv (j : Z) (r : list A) (rows : list (list A)) (col : list A) :
  Otf.column j (r :: rows) = Ok col ->
  exists x xs, Py.index r j = Ok x /\ Otf.column j rows = Ok xs /\ col = x :: xs.
Proof.
  simpl. destruct (Py.index r j) as [x|]; simpl; [|discriminate].
  destruct (Otf.column j rows) as [xs|]; simpl; [|discriminate].
  intros H. inversion H. now exists x, xs.
Qed.

Lemma column_removelast (j : Z) (rows : list (list A)) :
  forall col, Otf.column j rows = Ok col ->
              Otf.column j (removelast rows) = Ok (removelast col).
Proof.
  induction rows as [|r rows IH]; intros col H.
  - inversion H. reflexivity.
  - apply column_cons_inv in H. destruct H as (x & xs & Hx & Hxs & ->).
    destruct rows as [|r' rows'].
    + inversion Hxs. reflexivity.
    + specialize (IH xs Hxs).
      destruct (column_cons_inv _ _ _ _ Hxs) as (x' & xs' & _ & _ & ->).
      change (removelast (r :: r' :: rows')) with (r :: removelast (r' :: rows')).
      change (removelast (x :: x' :: xs')) with (x :: removelast (x' :: xs')).
      change (Otf.column j (r :: removelast (r' :: rows')))
        with (rbind (Py.index r j)
                (fun y => rbind (Otf.column j (removelast (r' :: rows')))
                            (fun ys => Ok (y :: ys)))).
      now rewrite Hx, IH.
Qed.

Lemma Forall_slice_from (P : A -> Prop) (c : Z) (l : list A) :
  Forall P l -> Forall P (Py.slice_from c l).
Proof.
  intros H. unfold Py.slice_from.
  apply Forall_forall. intros x Hx.
  rewrite Forall_forall in H. apply H.
  rewrite <- (firstn_skipn (Z.to_nat (Py.bound (Py.len l) c)) l).
  apply in_or_app. now right.
Qed.

End IndexFacts.

(** * The transfer function: slices *)

Section MtfSlices.

Import Otf.

(** C3 (as the code has it): for an MTF of [N] by [N] data on an axis of
    [N >= 1] samples, with [center = floor(N/2)], [tan] and [sag] return
    the half-slices from the centre WITHOUT their last sample -- the code
    slices [center:-1] --, that is [(unit[center:-1], data[center,
    center:-1])] and [(unit[center:-1], data[center:-1, center])], and leave
    the instance as it was. *)
Theorem tan_sag_drop_last (m : MTF) :
  mtf_unit m <> [] ->
  mtf_center m = (Py.len (mtf_unit m) / 2)%Z ->
  Py.len (mtf_data m) = Py.len (mtf_unit m) ->
  Forall (fun row => Py.len row = Py.len (mtf_unit m)) (mtf_data m) ->
  exists u t s,
    Claimed.tan m = Ok (u, t)
    /\ Claimed.sag m = Ok (u, s)
    /\ tan m = (Ok (removelast u, removelast t), m)
    /\ sag m = (Ok (removelast u, removelast s), m).
Proof.
  intros Hne Hc Hrows Hcols.
  assert (HN : (0 < Py.len (mtf_unit m))%Z).
  { unfold Py.len. destruct (mtf_unit m); [contradiction|simpl; lia]. }
  assert (Hc0 : (0 <= mtf_center m < Py.len (mtf_unit m))%Z).
  { rewrite Hc. split; [apply Z.div_pos; lia|apply Z.div_lt_upper_bound; lia]. }
  destruct (index_in_range (mtf_data m) (mtf_center m)) as (row & Hrow & _);
    [lia|].
  assert (Hax : in_axis (Z.of_nat (ncols (mtf_data m))) (mtf_center m) = true).
  { unfold ncols. destruct (mtf_data m) as [|r rs] eqn:E.
    - unfold Py.len in *. simpl in Hrows. lia.
    - inversion Hcols as [|? ? Hr _]. unfold in_axis.
      destruct (Z.ltb_spec (mtf_center m) 0); [lia|].
      apply andb_true_iff. unfold Py.len in *.
      split; [apply Z.leb_le|apply Z.ltb_lt]; lia. }
  destruct (column_total (mtf_center m)
              (Py.slice_from (mtf_center m) (mtf_data m))) as [s Hs].
  { apply Forall_slice_from. eapply Forall_impl; [|exact Hcols].
    intros r Hr. simpl in Hr. lia. }
  exists (Py.slice_from (mtf_center m) (mtf_unit m)),
         (Py.slice_from (mtf_center m) row), s.
  unfold Claimed.tan, Claimed.sag, tan, sag, column_slice.
  rewrite Hrow, Hax, Hs. simpl.
  rewrite !slice_to_minus_one by lia.
  rewrite (column_removelast _ _ _ Hs). simpl.
  repeat split.
Qed.

Lemma tan_sag_drop_last_witness :
  exists u t s,
    Claimed.tan Inputs.mtf3 = Ok (u, t)
    /\ Claimed.sag Inputs.mtf3 = Ok (u, s)
    /\ tan Inputs.mtf3 = (Ok (removelast u, removelast t), Inputs.mtf3)
    /\ sag Inputs.mtf3 = (Ok (removelast u, removelast s), Inputs.mtf3).
Proof.
  apply (tan_sag_drop_last Inputs.mtf3).
  - discriminate.
  - reflexivity.
  - reflexivity.
  - repeat constructor.
Defined.

(** C3 as stated fails: on the 3 by 3 MTF over the axis [-1, 0, 1] the
    claimed [tan] is [([0, 1], [1, 1/2])] and the claimed [sag] is
    [([0, 1], [1, 1/4])], but the code returns [([0], [1])] for both: the
    last sample is missing. *)
Lemma tan_sag_full_slices_counterexample :
  Claimed.tan Inputs.mtf3 = Ok ([0; 1]%R, [fin 1; fin (1 / 2)])
  /\ Claimed.sag Inputs.mtf3 = Ok ([0; 1]%R, [fin 1; fin (1 / 4)])
  /\ fst (tan Inputs.mtf3) = Ok ([0%R], [fin 1])
  /\ fst (sag Inputs.mtf3) = Ok ([0%R], [fin 1])
  /\ fst (tan Inputs.mtf3) <> Claimed.tan Inputs.mtf3
  /\ fst (sag Inputs.mtf3) <> Claimed.sag Inputs.mtf3.
Proof.
  repeat split; try reflexivity; intros H; inversion H.
Qed.

End MtfSlices.

(** * The transfer function: queries at sequences of points *)

Section ExactQueries.

Import Otf.

Local Open Scope R_scope.

Variable RectBivariateSpline :
  list R -> list R -> list (list npfloat) -> result spline.

(** [zip] stops at the shorter sequence. *)
Lemma combine_truncates {A B : Type} (a : list A) (b : list B) :
  combine a b
  = combine (firstn (Nat.min (length a) (length b)) a)
            (firstn (Nat.min (length a) (length b)) b).
Proof.
  rewrite <- combine_firstn, <- length_combine. symmetry. apply firstn_all.
Qed.


(** C5: with sequences of any two lengths, [exact_polar] and [exact_xy]
    raise no length error: once the interpolant is there they return
    exactly [min(len(a), len(b))] values, the value at the i-th pair for
    each i below the shorter length, in input order; the elements beyond
    the shorter sequence are dropped. *)
Theorem exact_zip_truncation (m m' : MTF) (interpf : spline) (a b : list R) :
  make_interp_function RectBivariateSpline m = (Ok interpf, m') ->
  let k := Nat.min (length a) (length b) in
  exists vs ws,
    exact_polar RectBivariateSpline (Many a (Some b)) m = (Ok (Values vs), m')
    /\ exact_xy RectBivariateSpline (Many a (Some b)) m = (Ok (Values ws), m')
    /\ length vs = k
    /\ length ws = k
    /\ vs = map (fun p => interpf (fst p * cos (snd p)) (fst p * sin (snd p)))
                (combine (firstn k a) (firstn k b))
    /\ ws = map (fun p => interpf (fst p) (snd p))
                (combine (firstn k a) (firstn k b)).
Proof.
  intros H k. unfold exact_polar, exact_xy. rewrite H.
  eexists. eexists. split; [reflexivity|]. split; [reflexivity|].
  rewrite !length_map, length_combine. fold k.
  split; [reflexivity|]. split; [reflexivity|].
  unfold k. rewrite <- !combine_truncates.
  split; apply map_ext; intros [x y]; reflexivity.
Qed.

End ExactQueries.

Lemma exact_zip_truncation_witness :
  exists vs ws,
    Otf.exact_polar Inputs.plane_spline (Otf.Many [1; 2; 3]%R (Some [0; 0]%R))
                    Inputs.mtf3
    = (Ok (Otf.Values vs), Inputs.mtf3_cached)
    /\ Otf.exact_xy Inputs.plane_spline (Otf.Many [1; 2; 3]%R (Some [0; 0]%R))
                    Inputs.mtf3
       = (Ok (Otf.Values ws), Inputs.mtf3_cached)
    /\ length vs = 2%nat
    /\ length ws = 2%nat
    /\ vs = map (fun p => Inputs.plane_ev (fst p * cos (snd p))%R
                                          (fst p * sin (snd p))%R)
                [(1, 0); (2, 0)]%R
    /\ ws = map (fun p => Inputs.plane_ev (fst p) (snd p)) [(1, 0); (2, 0)]%R.
Proof.
  apply (exact_zip_truncation Inputs.plane_spline Inputs.mtf3 Inputs.mtf3_cached
           Inputs.plane_ev [1; 2; 3]%R [0; 0]%R).
  reflexivity.
Defined.

(** * The diffraction limit *)

Section DiffractionLimit.

Import Otf.

Local Open Scope R_scope.

(** The closed form of the diffraction-limited MTF at a normalized
    frequency, as line 201 computes it. *)
Lemma airy_mtf_at_0 : 2 / PI * (acos 0 - 0 * sqrt (1 - 0 ^ 2)) = 1.
Proof. rewrite acos_0. field. apply PI_neq0. Qed.

Lemma airy_mtf_at_1 : 2 / PI * (acos 1 - 1 * sqrt (1 - 1 ^ 2)) = 0.
Proof.
  rewrite acos_1. replace (1 - 1 ^ 2) with 0 by ring. rewrite sqrt_0.
  field. apply PI_neq0.
Qed.

(** [linspace(start, stop, num)] for [num >= 2] starts at [start] and ends
    at [stop]. *)
Lemma linspace_ends (start stop : R) (num : Z) :
  (2 <= num)%Z ->
  exists mid, linspace start stop num = Ok (start :: mid ++ [stop])
              /\ length mid = (Z.to_nat num - 2)%nat.
Proof.
  intros H. unfold linspace.
  destruct (Z.ltb_spec num 0); [lia|].
  destruct (Z.to_nat num) as [|[|n]] eqn:E; try lia.
  rewrite <- cons_seq. rewrite map_cons.
  eexists. split.
  - rewrite <- app_comm_cons. f_equal. f_equal.
    change (INR 0) with 0. ring.
  - rewrite length_map, length_seq. lia.
Qed.

(** C8: for a positive f-number and wavelength and at least two points,
    [diffraction_limited_mtf] returns an [mtf] array of [num_pts] values
    whose first element is 1 (normalized frequency 0) and whose last
    element is 0 (normalized frequency 1). *)
Theorem diffraction_limited_mtf_ends (fno wavelength : R) (num_pts : Z) :
  0 < fno -> 0 < wavelength -> (2 <= num_pts)%Z ->
  exists freqs mtf,
    diffraction_limited_mtf fno wavelength num_pts = Ok (freqs, mtf)
    /\ Py.len mtf = num_pts
    /\ Py.index mtf 0 = Ok 1
    /\ Py.index mtf (-1) = Ok 0.
Proof.
  intros Hf Hw Hn. unfold diffraction_limited_mtf.
  destruct (linspace_ends 0 1 num_pts Hn) as (mid & -> & Hmid).
  unfold py_div. destruct (Req_dec_T (wavelength / 1000 * fno) 0) as [E|_].
  { exfalso. assert (0 < wavelength / 1000 * fno); [|lra].
    apply Rmult_lt_0_compat; lra. }
  cbn [rbind]. eexists. eexists. split; [reflexivity|].
  rewrite map_cons, map_app. cbn [map].
  rewrite airy_mtf_at_0, airy_mtf_at_1.
  split; [|split].
  - unfold Py.len. cbn [length]. rewrite length_app, length_map, Hmid. simpl. lia.
  - reflexivity.
  - rewrite app_comm_cons. apply index_last_app.
Qed.

Lemma diffraction_limited_mtf_ends_witness :
  exists freqs mtf,
    diffraction_limited_mtf 1 (1 / 2) 128 = Ok (freqs, mtf)
    /\ Py.len mtf = 128%Z
    /\ Py.index mtf 0 = Ok 1
    /\ Py.index mtf (-1) = Ok 0.
Proof.
  apply (diffraction_limited_mtf_ends 1 (1 / 2) 128); [lra|lra|lia].
Defined.

End DiffractionLimit.

(** * Polar and cartesian coordinates *)

Section PolarCartesian.

Import Coordinates.

Local Open Scope R_scope.

(** Where the cosine is positive, zero or negative on [[-PI, PI]]. *)
Lemma cos_sign_cases (phi : R) :
  - PI <= phi <= PI ->
  (- (PI / 2) < phi < PI / 2 /\ 0 < cos phi)
  \/ (phi = PI / 2 /\ cos phi = 0)
  \/ (phi = - (PI / 2) /\ cos phi = 0)
  \/ (PI / 2 < phi <= PI /\ cos phi < 0)
  \/ (- PI <= phi < - (PI / 2) /\ cos phi < 0).
Proof.
  intros [Hlo Hhi]. pose proof PI_RGT_0 as HPI.
  destruct (Rtotal_order phi (PI / 2)) as [H1|[H1|H1]].
  - destruct (Rtotal_order phi (- (PI / 2))) as [H2|[H2|H2]].
    + right; right; right; right. split; [lra|].
      rewrite <- cos_neg. apply cos_lt_0; lra.
    + right; right; left. split; [exact H2|].
      rewrite H2, cos_neg. apply cos_PI2.
    + left. split; [lra|]. apply cos_gt_0; lra.
  - right; left. split; [exact H1|]. rewrite H1. apply cos_PI2.
  - right; right; right; left. split; [lra|]. apply cos_lt_0; lra.
Qed.

(** The quotient that [atan2] takes is the tangent of the angle. *)
Lemma polar_quotient (rho phi : R) :
  0 < rho -> cos phi <> 0 -> rho * sin phi / (rho * cos phi) = tan phi.
Proof. intros Hr Hc. unfold tan. field. split; lra. Qed.

Lemma tan_shift_PI (phi : R) : cos phi <> 0 -> tan (phi + PI) = tan phi.
Proof.
  intros Hc. unfold tan. rewrite neg_sin, neg_cos. field. exact Hc.
Qed.

(** Decide the next comparison of [atan2] in the goal by linear (or, with
    the sign of a product, non-linear) arithmetic. *)
Ltac atan2_branch :=
  match goal with
  | |- context [Rlt_dec ?a ?b] =>
      destruct (Rlt_dec a b); [try (exfalso; nra)|try (exfalso; nra)]
  | |- context [Rle_dec ?a ?b] =>
      destruct (Rle_dec a b); [try (exfalso; nra)|try (exfalso; nra)]
  end.

(** [atan2] recovers the angle of a point at a positive radius. *)
Lemma atan2_polar (rho phi : R) :
  0 < rho -> - PI <= phi <= PI ->
  atan2 (rho * sin phi) (rho * cos phi) = (if Req_dec_T phi (- PI) then PI else phi).
Proof.
  intros Hr Hphi. pose proof PI_RGT_0 as HPI.
  destruct (Req_dec_T phi (- PI)) as [E|NE].
  - subst phi. rewrite sin_neg, cos_neg, sin_PI, cos_PI. unfold atan2.
    repeat atan2_branch.
    replace (rho * - 0 / (rho * -1)) with 0 by (field; lra).
    rewrite atan_0. ring.
  - unfold atan2.
    destruct (cos_sign_cases phi Hphi)
      as [[Hb Hc]|[[-> Hc]|[[-> Hc]|[[Hb Hc]|[Hb Hc]]]]].
    + atan2_branch.
      rewrite polar_quotient by lra. apply atan_tan; lra.
    + rewrite Hc, sin_PI2. repeat atan2_branch. reflexivity.
    + rewrite Hc, sin_neg, sin_PI2. repeat atan2_branch. reflexivity.
    + assert (Hs : 0 <= sin phi) by (apply sin_ge_0; lra).
      repeat atan2_branch.
      rewrite polar_quotient by lra.
      replace phi with (phi - PI + PI) at 1 by ring.
      rewrite tan_shift_PI.
      * rewrite atan_tan by lra. ring.
      * assert (0 < cos (phi - PI)); [apply cos_gt_0; lra|lra].
    + assert (Hs : sin phi < 0) by (apply sin_lt_0_var; lra).
      repeat atan2_branch.
      rewrite polar_quotient by lra.
      rewrite <- (tan_shift_PI phi) by lra.
      rewrite atan_tan by lra. ring.
Qed.

(** C9: for [rho >= 0] and [phi] in [[-PI, PI]], [cart_to_polar] after
    [polar_to_cart] gives back [rho], and, unless [rho = 0], gives back
    [phi] up to a multiple of [2 PI] (the multiple is 0, except at
    [phi = -PI], which comes back as [PI]). *)
Theorem polar_cart_roundtrip (rho phi : R) :
  0 <= rho -> - PI <= phi <= PI ->
  let xy := polar_to_cart rho phi in
  let back := cart_to_polar (fst xy) (snd xy) in
  xy = (rho * cos phi, rho * sin phi)
  /\ fst back = rho
  /\ (rho = 0 \/ exists k : Z, snd back = phi + 2 * IZR k * PI).
Proof.
  intros Hr Hphi xy back. split; [reflexivity|].
  unfold back, xy, polar_to_cart, cart_to_polar. cbn [fst snd]. split.
  - match goal with
    | |- sqrt ?e = _ =>
        replace e with (rho ^ 2 * (Rsqr (sin phi) + Rsqr (cos phi)))
          by (unfold Rsqr; ring)
    end.
    rewrite sin2_cos2, Rmult_1_r. now apply sqrt_pow2.
  - destruct (Req_dec_T rho 0) as [E|NE]; [now left|right].
    rewrite atan2_polar by lra.
    destruct (Req_dec_T phi (- PI)) as [->|_].
    + exists 1%Z. ring.
    + exists 0%Z. ring.
Qed.

Lemma polar_cart_roundtrip_witness :
  let xy := polar_to_cart 2 (PI / 2) in
  let back := cart_to_polar (fst xy) (snd xy) in
  xy = (2 * cos (PI / 2), 2 * sin (PI / 2))
  /\ fst back = 2
  /\ (2 = 0 \/ exists k : Z, snd back = PI / 2 + 2 * IZR k * PI).
Proof.
  pose proof PI_RGT_0 as HPI.
  apply (polar_cart_roundtrip 2 (PI / 2)); lra.
Defined.

End PolarCartesian.

(** * The transfer function: normalization *)

Section Normalization.

Import Otf.

Local Open Scope R_scope.

(** [fftshift] moves entry 0 of an axis to index [n // 2]. *)
Lemma fftshift1_center {A : Type} (x : A) (l : list A) :
  nth_error (fftshift1 (x :: l)) (length (x :: l) / 2) = Some x.
Proof.
  unfold fftshift1. set (n := length (x :: l)).
  assert (Hn : (0 < n)%nat) by (unfold n; simpl; lia).
  assert (Hh : (n / 2 < n)%nat) by (apply Nat.div_lt; lia).
  rewrite nth_error_app2; rewrite length_skipn; fold n; [|lia].
  replace (n / 2 - (n - (n - n / 2)))%nat with 0%nat by lia.
  destruct (n - n / 2)%nat as [|k] eqn:E; [lia|reflexivity].
Qed.

Lemma index_of_nat {A : Type} (l : list A) (k : nat) (x : A) :
  nth_error l k = Some x -> Py.index l (Z.of_nat k) = Ok x.
Proof.
  intros H. unfold Py.index.
  destruct (Z.ltb_spec (Z.of_nat k) 0); [lia|].
  destruct (Z.ltb_spec (Z.of_nat k) 0); [lia|].
  now rewrite Nat2Z.id, H.
Qed.

(** A sum of complex numbers without imaginary parts. *)
Lemma Csum_real {A : Type} (f : nat * A -> C) (g : A -> R) (l : list A) :
  (forall i x, f (i, x) = (g x, 0)) ->
  forall js : list nat, Csum (map f (combine js l)) = (Rsum (map g (firstn (length js) l)), 0).
Proof.
  intros Hf. induction l as [|x l IH]; intros [|j js]; try reflexivity.
  simpl. rewrite Hf, IH. unfold Cadd. simpl. f_equal. ring.
Qed.

(** The zero-frequency entry of the transform is the sum of the samples. *)
Lemma dft2_entry_dc (a : list (list R)) : dft2_entry a 0 0 = (total a, 0).
Proof.
  unfold dft2_entry, total, enumerate.
  rewrite (Csum_real _ Rsum).
  - now rewrite length_seq, firstn_all.
  - intros i row.
    rewrite (Csum_real _ (fun x => x)).
    + now rewrite length_seq, firstn_all, map_id.
    + intros j x. unfold Cscale, Cexp_i. cbn [fst snd].
      replace (- (2 * PI * (INR 0 * INR i / INR (nrows a) + INR 0 * INR j / INR (ncols a))))
        with 0 by (change (INR 0) with 0; unfold Rdiv; ring).
      rewrite cos_0, sin_0. f_equal; ring.
Qed.

Lemma Cabs_real (t : R) : Cabs (t, 0) = Rabs t.
Proof.
  unfold Cabs. cbn [fst snd].
  replace (t ^ 2 + 0 ^ 2) with (Rsqr t) by (unfold Rsqr; ring).
  apply sqrt_Rsqr_abs.
Qed.

Lemma index_map {A B : Type} (g : A -> B) (l : list A) (i : Z) (x : A) :
  Py.index l i = Ok x -> Py.index (map g l) i = Ok (g x).
Proof.
  unfold Py.index, Py.len. rewrite length_map.
  destruct (_ <? 0)%Z; [discriminate|].
  rewrite nth_error_map.
  destruct (nth_error l _); [|discriminate].
  intros H. injection H as ->. reflexivity.
Qed.

Lemma index2_map {A B : Type} (g : A -> B) (a : list (list A)) (i j : Z) (x : A) :
  index2 a i j = Ok x -> index2 (map (map g) a) i j = Ok (g x).
Proof.
  unfold index2. destruct (Py.index a i) as [row|] eqn:E; [|discriminate].
  cbn [rbind]. intros H.
  rewrite (index_map (map g) _ _ _ E). cbn [rbind].
  now apply index_map.
Qed.

(** After [fftshift], the entry [(0, 0)] of an [n] by [n] array sits at
    [(n // 2, n // 2)]. *)
Lemma fftshift_center {A : Type} (x : A) (r0 : list A) (rest : list (list A)) (n : nat) :
  length (x :: r0) = n ->
  length ((x :: r0) :: rest) = n ->
  index2 (fftshift ((x :: r0) :: rest)) (Z.of_nat (n / 2)) (Z.of_nat (n / 2)) = Ok x.
Proof.
  intros H0 H1. unfold index2, fftshift. cbn [map].
  rewrite (index_of_nat _ _ (fftshift1 (x :: r0))).
  - cbn [rbind]. apply index_of_nat. rewrite <- H0. apply fftshift1_center.
  - replace n with (length (fftshift1 (x :: r0) :: map fftshift1 rest)).
    + apply fftshift1_center.
    + rewrite <- H1. cbn [length]. now rewrite length_map.
Qed.

(** What [from_psf] leaves at the centre: the magnitude of the sum of the
    PSF samples, divided by itself. *)
Lemma from_psf_center (psf : PSF) :
  (0 < psf_samples psf)%Z ->
  Py.len (psf_data psf) = psf_samples psf ->
  Forall (fun row => Py.len row = psf_samples psf) (psf_data psf) ->
  psf_center psf = (psf_samples psf / 2)%Z ->
  exists m,
    from_psf psf = Ok m
    /\ mtf_center m = psf_center psf
    /\ index2 (mtf_data m) (mtf_center m) (mtf_center m)
       = Ok (np_div (Rabs (total (psf_data psf))) (Rabs (total (psf_data psf)))).
Proof.
  intros HN Hrows Hcols Hc.
  destruct (Z.to_nat (psf_samples psf)) as [|n'] eqn:En; [lia|].
  assert (Hlen : length (psf_data psf) = S n') by (unfold Py.len in Hrows; lia).
  assert (Hnc : ncols (psf_data psf) = S n').
  { unfold ncols. destruct (psf_data psf) as [|r rs]; [discriminate|].
    inversion Hcols as [|? ? Hr _]. unfold Py.len in Hr. lia. }
  assert (Hcn : psf_center psf = Z.of_nat (S n' / 2)).
  { rewrite Hc, Nat2Z.inj_div. f_equal. lia. }
  assert (Hpeak : forall spectrum,
             fft2 (psf_data psf) = Ok spectrum ->
             index2 (map (map Cabs) (fftshift spectrum))
                    (psf_center psf) (psf_center psf)
             = Ok (Rabs (total (psf_data psf)))).
  { unfold fft2, nrows. rewrite Hlen, Hnc. cbn [Nat.eqb orb].
    intros spectrum H. injection H as <-.
    rewrite <- Cabs_real, <- dft2_entry_dc, Hcn.
    apply index2_map, fftshift_center; cbn [length];
      now rewrite !length_map, length_seq. }
  unfold from_psf.
  destruct (fft2 (psf_data psf)) as [spectrum|e] eqn:Ef.
  2:{ unfold fft2, nrows in Ef. rewrite Hlen, Hnc in Ef. discriminate. }
  cbn [rbind]. rewrite (Hpeak spectrum eq_refl). cbn [rbind].
  eexists. split; [reflexivity|].
  assert (Hcenter : mtf_center
                      (MTF_init
                         (map (map (fun x => np_div x (Rabs (total (psf_data psf)))))
                              (map (map Cabs) (fftshift spectrum)))
                         (forward_ft_unit (psf_sample_spacing psf) (psf_samples psf)))
                    = psf_center psf).
  { unfold MTF_init, forward_ft_unit, Py.len. cbn [mtf_center].
    rewrite length_map, length_seq, Z2Nat.id by lia. now rewrite Hc. }
  split; [exact Hcenter|]. rewrite Hcenter.
  unfold MTF_init. cbn [mtf_data].
  apply (index2_map (fun x => np_div x (Rabs (total (psf_data psf))))).
  now apply Hpeak.
Qed.

Lemma np_div_self (x : R) : x <> 0 -> np_div x x = fin 1.
Proof.
  intros H. unfold np_div. destruct (Req_dec_T x 0); [contradiction|].
  f_equal. now field.
Qed.

Lemma np_div_zero : np_div 0 0 = nan.
Proof.
  unfold np_div. destruct (Req_dec_T 0 0) as [_|H]; [reflexivity|now destruct H].
Qed.

(** C1 (as the code has it): for a PSF with [N] by [N] data, [N >= 1],
    centre index [floor(N/2)] and samples that do not sum to zero,
    [MTF.from_psf] returns an MTF whose centre is the PSF's centre and
    whose value at [data[center, center]] is exactly 1. *)
Theorem from_psf_center_is_one (psf : PSF) :
  (0 < psf_samples psf)%Z ->
  Py.len (psf_data psf) = psf_samples psf ->
  Forall (fun row => Py.len row = psf_samples psf) (psf_data psf) ->
  psf_center psf = (psf_samples psf / 2)%Z ->
  total (psf_data psf) <> 0 ->
  exists m,
    from_psf psf = Ok m
    /\ mtf_center m = psf_center psf
    /\ index2 (mtf_data m) (mtf_center m) (mtf_center m) = Ok (fin 1).
Proof.
  intros HN Hrows Hcols Hc Hsum.
  destruct (from_psf_center psf HN Hrows Hcols Hc) as (m & Hm & Hmc & Hv).
  exists m. split; [exact Hm|]. split; [exact Hmc|].
  rewrite Hv, np_div_self; [reflexivity|]. now apply Rabs_no_R0.
Qed.

Lemma from_psf_center_is_one_witness :
  exists m,
    from_psf Inputs.psf_point = Ok m
    /\ mtf_center m = psf_center Inputs.psf_point
    /\ index2 (mtf_data m) (mtf_center m) (mtf_center m) = Ok (fin 1).
Proof.
  apply (from_psf_center_is_one Inputs.psf_point).
  - reflexivity.
  - reflexivity.
  - repeat constructor.
  - reflexivity.
  - unfold total, Rsum. simpl. lra.
Defined.

(** C1 as stated fails: a PSF without light (all samples 0) is square and
    has its centre at [floor(N/2)], and [from_psf] divides 0 by 0 at the
    centre: the value there is [nan], not 1. *)
Lemma from_psf_dark_counterexample :
  Py.len (psf_data Inputs.psf_dark) = psf_samples Inputs.psf_dark
  /\ Forall (fun row => Py.len row = psf_samples Inputs.psf_dark)
            (psf_data Inputs.psf_dark)
  /\ psf_center Inputs.psf_dark = (psf_samples Inputs.psf_dark / 2)%Z
  /\ exists m,
       from_psf Inputs.psf_dark = Ok m
       /\ mtf_center m = psf_center Inputs.psf_dark
       /\ index2 (mtf_data m) (mtf_center m) (mtf_center m) = Ok nan
       /\ index2 (mtf_data m) (mtf_center m) (mtf_center m) <> Ok (fin 1).
Proof.
  split; [reflexivity|]. split; [repeat constructor|]. split; [reflexivity|].
  destruct (from_psf_center Inputs.psf_dark) as (m & Hm & Hmc & Hv);
    try reflexivity; [repeat constructor|].
  exists m. split; [exact Hm|]. split; [exact Hmc|].
  assert (Hz : Rabs (total (psf_data Inputs.psf_dark)) = 0).
  { unfold total, Rsum. simpl.
    match goal with |- Rabs ?e = _ => replace e with 0 by ring end.
    apply Rabs_R0. }
  rewrite Hv, Hz, np_div_zero. split; [reflexivity|discriminate].
Qed.

End Normalization.

(** * The detector: further properties *)

Section DetectorMore.

Import Detector.

Local Open Scope Z_scope.

Lemma sample_psf_odd_residual_raises_witness :
  sample_psf Inputs.psf3 Inputs.det2 = (Raise ValueError, Inputs.det2).
Proof.
  apply (sample_psf_odd_residual_raises Inputs.det2 Inputs.psf3).
  - intros H. discriminate H.
  - reflexivity.
  - repeat constructor.
  - reflexivity.
  - intros H. discriminate H.
  - intros H. discriminate H.
  - reflexivity.
Defined.

Lemma sample_psf_even_residual_returns_witness :
  exists p,
    sample_psf Inputs.psf4 Inputs.det2 = (Ok p, append (CapPSF p) Inputs.det2)
    /\ psf_samples_x p = 2
    /\ psf_samples_y p = 2
    /\ Py.len (psf_data p) = psf_samples_x p
    /\ Forall (fun row => Py.len row = psf_samples_y p) (psf_data p).
Proof.
  apply (sample_psf_even_residual_returns Inputs.det2 Inputs.psf4).
  - intros H. discriminate H.
  - reflexivity.
  - repeat constructor.
  - intros H. discriminate H.
  - reflexivity.
  - reflexivity.
Defined.

Lemma sample_psf_uniform_witness :
  Forall (Forall (fun x => x == 1)%Q) (psf_data Inputs.flat4_sampled).
Proof.
  apply (sample_psf_uniform 1 Inputs.det2
           (append (CapPSF Inputs.flat4_sampled) Inputs.det2)
           Inputs.flat4 Inputs.flat4_sampled).
  - repeat (constructor; [repeat (constructor; [reflexivity|]); constructor|]).
    constructor.
  - reflexivity.
Defined.

(** X5: How [sample_psf] fails: a zero sample spacing, or a pixel size that
    rounds to zero samples per pixel, raises [ZeroDivisionError]; a negative
    number of samples per pixel raises [ValueError]; no other exception
    comes out, and a call that raises leaves the detector as it was. *)
Theorem sample_psf_failures (d : Detector) (psf : PSF) :
  let spp := Qceiling (pixel_size d / psf_sample_spacing psf) in
  ((psf_sample_spacing psf == 0)%Q \/ spp = 0 ->
   sample_psf psf d = (Raise ZeroDivisionError, d))
  /\ (~ (psf_sample_spacing psf == 0)%Q -> spp < 0 ->
      sample_psf psf d = (Raise ValueError, d))
  /\ (forall e d', sample_psf psf d = (Raise e, d') ->
                   d' = d /\ (e = ZeroDivisionError \/ e = ValueError)).
Proof.
  intros spp. unfold sample_psf, rebin, truediv, floordiv.
  destruct (Qeq_bool (psf_sample_spacing psf) 0) eqn:E; cbn [rbind]; fold spp.
  - split; [reflexivity|]. apply Qeq_bool_iff in E. split; [contradiction|].
    intros e d' H. injection H as <- <-. auto.
  - assert (Hne : ~ (psf_sample_spacing psf == 0)%Q).
    { intros H. apply Qeq_bool_iff in H. congruence. }
    destruct (Z.eqb_spec spp 0) as [H0|H0]; cbn [rbind].
    + split; [reflexivity|]. split; [lia|].
      intros e d' H. injection H as <- <-. auto.
    + split; [intros [H|H]; contradiction|].
      split.
      * intros _ Hneg. unfold Np.reshape4.
        destruct (Z.ltb_spec spp 0); [|lia].
        now rewrite !orb_true_r.
      * intros e d'.
        destruct (Np.reshape4 _ _ _ _ _) as [a4|e'] eqn:Er; cbn [rbind];
          intros H; [discriminate|]. injection H as <- <-.
        split; [reflexivity|right].
        unfold Np.reshape4 in Er.
        destruct (_ || _); [now injection Er|].
        destruct (negb _); [now injection Er|discriminate].
Qed.

Lemma sample_psf_failures_witness :
  sample_psf Inputs.psf4 Inputs.det0 = (Raise ZeroDivisionError, Inputs.det0).
Proof.
  apply (proj1 (sample_psf_failures Inputs.det0 Inputs.psf4)).
  right. reflexivity.
Defined.

(** X7: With [which = 'last'] in any letter case, [save_image] and
    [show_image] take the most recent capture, and raise [IndexError] when
    nothing has been captured yet. *)
Theorem which_last_takes_newest (path s : string) (d : Detector) :
  Py.lower s = "last"%string ->
  (captures d = [] ->
   fst (save_image path (PyStr s) d) = Raise IndexError
   /\ fst (show_image (PyStr s) d) = Raise IndexError)
  /\ (forall cs c, captures d = cs ++ [c] ->
        fst (save_image path (PyStr s) d) = Ok (Saved c path (bit_depth d))
        /\ fst (show_image (PyStr s) d) = Ok (Shown c)).
Proof.
  intros H. destruct (which_last_selects path s d H) as [-> ->]. split.
  - intros ->. split; reflexivity.
  - intros cs c ->. rewrite index_last_app. split; reflexivity.
Qed.

Lemma which_last_takes_newest_witness :
  fst (save_image "out.png" (PyStr "LAST") Inputs.det2_one)
  = Ok (Saved (CapPSF Inputs.psf4_sampled) "out.png" 14)
  /\ fst (show_image (PyStr "LAST") Inputs.det2_one)
     = Ok (Shown (CapPSF Inputs.psf4_sampled)).
Proof.
  apply (proj2 (which_last_takes_newest "out.png" "LAST" Inputs.det2_one eq_refl)
               [] (CapPSF Inputs.psf4_sampled)).
  reflexivity.
Defined.

Lemma which_other_string_witness :
  fst (save_image "out.png" (PyStr "first") Inputs.det2_one) = Raise ValueError
  /\ fst (show_image (PyStr "first") Inputs.det2_one) = Ok Unchanged.
Proof.
  apply (which_other_string "out.png" "first" Inputs.det2_one).
  discriminate.
Defined.

Section WithImage.

Variable as_psf : Image -> PSF.

(** X6: [sample_image] returns an image that carries the data of the PSF that
    [sample_psf] made of it, at the detector's pixel size; when
    [sample_psf] raises, [sample_image] raises the same exception and the
    detector is as it was. *)
Theorem sample_image_outcome (image : Image) (d : Detector) :
  (forall i d', sample_image as_psf image d = (Ok i, d') ->
     img_sample_spacing i = pixel_size d
     /\ exists p d1, sample_psf (as_psf image) d = (Ok p, d1)
                     /\ img_data i = psf_data p)
  /\ (forall e d', sample_image as_psf image d = (Raise e, d') ->
        d' = d /\ sample_psf (as_psf image) d = (Raise e, d)).
Proof.
  split.
  - intros i d' H. apply sample_image_ok in H.
    destruct H as (p & d1 & Hp & -> & _). cbn [img_sample_spacing img_data].
    split.
    + apply sample_psf_ok in Hp. destruct Hp as [Hp _].
      exact (rebin_spacing _ _ _ Hp).
    + now exists p, d1.
  - intros e d'. unfold sample_image.
    destruct (sample_psf (as_psf image) d) as [[p|e'] d1] eqn:E; intros H;
      [discriminate|]. injection H as <- <-.
    apply sample_psf_raise in E as Hd. subst d1. now split.
Qed.

End WithImage.

Lemma sample_image_outcome_witness :
  img_sample_spacing Inputs.img4_sampled = pixel_size Inputs.det2
  /\ exists p d1, sample_psf (Inputs.as_psf Inputs.img4) Inputs.det2 = (Ok p, d1)
                  /\ img_data Inputs.img4_sampled = psf_data p.
Proof.
  apply (proj1 (sample_image_outcome Inputs.as_psf Inputs.img4 Inputs.det2)
               Inputs.img4_sampled Inputs.det2_two).
  reflexivity.
Defined.

End DetectorMore.

(** * The reshape and mean of [sample_psf] are block means *)

Section ChunkIndexing.

Context {A : Type}.

Lemma nth_chunks (k n j : nat) (l : list A) :
  (j < k)%nat -> nth j (Np.chunks k n l) [] = firstn n (skipn (j * n) l).
Proof.
  revert j l. induction k as [|k IH]; intros j l Hj; [lia|].
  destruct j as [|j]; simpl.
  - reflexivity.
  - rewrite IH by lia. rewrite skipn_skipn. f_equal. f_equal. lia.
Qed.

Lemma chunks_as_map (k n : nat) (l : list A) :
  Np.chunks k n l = map (fun c => firstn n (skipn (c * n) l)) (seq 0 k).
Proof.
  apply (nth_ext _ _ [] []).
  - now rewrite chunks_length, length_map, length_seq.
  - intros j Hj. rewrite chunks_length in Hj. rewrite nth_chunks by exact Hj.
    rewrite (nth_indep _ [] (firstn n (skipn (0 * n) l)))
      by (now rewrite length_map, length_seq).
    rewrite (map_nth (fun c => firstn n (skipn (c * n) l)) (seq 0 k) 0%nat j).
    now rewrite seq_nth.
Qed.

(** Row [r] of an array whose rows have [m] entries, read off the
    flattened array. *)
Lemma row_of_concat (m : nat) (rows : list (list A)) :
  Forall (fun row => length row = m) rows ->
  forall r, (r < length rows)%nat ->
            firstn m (skipn (r * m) (concat rows)) = nth r rows [].
Proof.
  induction 1 as [|row rows Hrow _ IH]; intros r Hr; [simpl in Hr; lia|].
  cbn [concat]. destruct r as [|r].
  - cbn [Nat.mul skipn nth]. rewrite firstn_app, Hrow, Nat.sub_diag, firstn_0, app_nil_r.
    rewrite <- Hrow. apply firstn_all.
  - cbn [nth]. rewrite skipn_app, Hrow.
    rewrite skipn_all2 by (rewrite Hrow; simpl; lia).
    cbn [app]. replace (S r * m - m)%nat with (r * m)%nat by (simpl; lia).
    apply IH. simpl in Hr. lia.
Qed.

(** A chunk of a chunk is a chunk of the whole. *)
Lemma chunk_of_chunk (m n1 i a : nat) (l : list A) :
  (a < n1)%nat ->
  firstn m (skipn (a * m) (firstn (n1 * m) (skipn (i * (n1 * m)) l)))
  = firstn m (skipn ((i * n1 + a) * m) l).
Proof.
  intros Ha. rewrite skipn_firstn_comm, firstn_firstn, skipn_skipn.
  f_equal; [|f_equal]; nia.
Qed.

End ChunkIndexing.

Section BlockMeans.

Import Detector.

Local Open Scope Z_scope.

(** The reshape to [(k0, n, k2, n)] followed by the mean over axes 1 and
    3, on an array of [k0 * n] rows of [k2 * n] entries, gives the means
    of its [n] by [n] blocks. *)
Lemma mean13_is_block_means (k0 n k2 : nat) (a : Np.array2) (a4 : Np.array4) :
  length a = (k0 * n)%nat ->
  Forall (fun row => length row = (k2 * n)%nat) a ->
  Np.reshape4 (Z.of_nat k0) (Z.of_nat n) (Z.of_nat k2) (Z.of_nat n) a = Ok a4 ->
  Np.mean13 (Z.of_nat n) (Z.of_nat k2) (Z.of_nat n) a4
  = BoxAverage.block_means a n k0 k2.
Proof.
  intros Hlen Hrows. unfold Np.reshape4.
  destruct (_ || _); [discriminate|]. destruct (negb _); [discriminate|].
  intros H. injection H as <-. rewrite !Nat2Z.id.
  replace (n * k2 * n)%nat with (n * (k2 * n))%nat by lia.
  unfold Np.mean13, BoxAverage.block_means. rewrite Nat2Z.id.
  rewrite chunks_as_map, !map_map.
  apply map_ext_in. intros i Hi. apply in_seq in Hi.
  apply map_ext_in. intros j Hj. apply in_seq in Hj.
  unfold BoxAverage.block_mean, BoxAverage.block_sum.
  rewrite <- Nat2Z.inj_mul. f_equal. f_equal.
  rewrite chunks_as_map, !map_map.
  apply map_ext_in. intros r Hr. apply in_seq in Hr.
  rewrite nth_chunks by lia. f_equal. f_equal. f_equal.
  rewrite chunk_of_chunk by lia.
  apply row_of_concat; [exact Hrows|nia].
Qed.

(** X3: With an even residual on the x axis, the PSF that [sample_psf] returns
    holds the means of the [samples_per_pixel] by [samples_per_pixel]
    blocks of the trimmed data, pixel by pixel; the trimmed data starts
    [floor(residual / 2)] samples in on each axis. *)
Theorem sample_psf_block_means (d : Detector) (psf : PSF) :
  let spp := Qceiling (pixel_size d / psf_sample_spacing psf) in
  let tx := psf_samples_x psf / spp in
  let ty := psf_samples_y psf / spp in
  let trimmed :=
    Np.slice2 ((psf_samples_x psf - tx * spp) / 2)
              (tx * spp + (psf_samples_x psf - tx * spp) / 2)
              ((psf_samples_y psf - ty * spp) / 2)
              (ty * spp + (psf_samples_y psf - ty * spp) / 2)
              (psf_data psf) in
  ~ (psf_sample_spacing psf == 0)%Q ->
  Py.len (psf_data psf) = psf_samples_x psf ->
  Forall (fun row => Py.len row = psf_samples_y psf) (psf_data psf) ->
  0 <= psf_samples_y psf ->
  0 < spp ->
  Z.odd (psf_samples_x psf mod spp) = false ->
  exists p,
    sample_psf psf d = (Ok p, append (CapPSF p) d)
    /\ psf_data p
       = BoxAverage.block_means trimmed (Z.to_nat spp) (Z.to_nat tx) (Z.to_nat ty).
Proof.
  intros spp tx ty trimmed Hs Hx Hy Hsy Hp Heven.
  assert (Hsx : 0 <= psf_samples_x psf) by (rewrite <- Hx; apply len_nonneg).
  destruct (residual_bounds (psf_samples_x psf) spp Hp Hsx) as (Htx & Hrx & Hmx).
  destruct (residual_bounds (psf_samples_y psf) spp Hp Hsy) as (Hty & Hry & _).
  fold tx in Htx, Hrx, Hmx. fold ty in Hty, Hry.
  set (rx := psf_samples_x psf - tx * spp) in *.
  set (ry := psf_samples_y psf - ty * spp) in *.
  pose proof (half_range rx ltac:(lia)) as Hhx.
  pose proof (half_range ry ltac:(lia)) as Hhy.
  assert (Htrim : trim psf spp tx ty = trimmed).
  { assert (Hodd : Z.odd rx = false) by (now rewrite Hmx).
    unfold trim, is_odd. fold rx ry. now rewrite Hodd. }
  assert (Hrows : length trimmed = (Z.to_nat tx * Z.to_nat spp)%nat).
  { unfold trimmed, Np.slice2. rewrite length_map.
    pose proof (len_slice (rx / 2) (tx * spp + rx / 2) (psf_data psf)) as Hl.
    rewrite Hx in Hl.
    rewrite (kept_length (psf_samples_x psf) (tx * spp) rx (rx / 2)) in Hl;
      [|nia|unfold rx; lia|lia].
    unfold Py.len in Hl. nia. }
  assert (Hcols : Forall (fun row => length row = (Z.to_nat ty * Z.to_nat spp)%nat)
                         trimmed).
  { unfold trimmed, Np.slice2. apply Forall_map, Forall_slice.
    eapply Forall_impl; [|exact Hy]. intros row Hrow. cbv beta in Hrow.
    pose proof (len_slice (ry / 2) (ty * spp + ry / 2) row) as Hl.
    rewrite Hrow in Hl.
    rewrite (kept_length (psf_samples_y psf) (ty * spp) ry (ry / 2)) in Hl;
      [|nia|unfold ry; lia|lia].
    unfold Py.len in Hl. nia. }
  assert (Hsize : Py.len (concat trimmed) = tx * spp * ty * spp).
  { rewrite (len_concat_uniform (ty * spp)).
    - unfold Py.len. rewrite Hrows. nia.
    - eapply Forall_impl; [|exact Hcols]. intros row Hrow. cbv beta in Hrow.
      unfold Py.len. rewrite Hrow. nia. }
  destruct (reshape4_fits tx spp ty spp _ Htx ltac:(lia) Hty ltac:(lia) Hsize)
    as (a4 & Hr & _).
  unfold sample_psf, rebin, truediv, floordiv.
  destruct (Qeq_bool (psf_sample_spacing psf) 0) eqn:E;
    [apply Qeq_bool_eq in E; contradiction|].
  cbn [rbind]. fold spp.
  destruct (Z.eqb_spec spp 0); [lia|]. cbn [rbind]. fold tx ty.
  rewrite Htrim, Hr. cbn [rbind].
  eexists. split; [reflexivity|]. cbn [psf_data].
  rewrite <- (Z2Nat.id spp), <- (Z2Nat.id tx), <- (Z2Nat.id ty) in Hr by lia.
  rewrite <- (mean13_is_block_means _ _ _ _ _ Hrows Hcols Hr).
  now rewrite !Z2Nat.id by lia.
Qed.

Lemma sample_psf_block_means_witness :
  exists p,
    sample_psf Inputs.psf4 Inputs.det2 = (Ok p, append (CapPSF p) Inputs.det2)
    /\ psf_data p
       = BoxAverage.block_means (Np.slice2 0 4 0 4 (psf_data Inputs.psf4)) 2 2 2.
Proof.
  apply (sample_psf_block_means Inputs.det2 Inputs.psf4).
  - intros H. discriminate H.
  - reflexivity.
  - repeat constructor.
  - intros H. discriminate H.
  - reflexivity.
  - reflexivity.
Defined.

End BlockMeans.

(** * The transfer function: further properties of the queries *)

Section QueriesMore.

Import Otf.

Local Open Scope R_scope.


Variable RectBivariateSpline :
  list R -> list R -> list (list npfloat) -> result spline.

Lemma polar_to_cart_azimuth_0 (f : R) : Coordinates.polar_to_cart f 0 = (f, 0).
Proof.
  unfold Coordinates.polar_to_cart. rewrite cos_0, sin_0. f_equal; ring.
Qed.

(** X9: Without azimuths, [exact_polar] evaluates along the x axis: it gives
    what [exact_xy] gives for the same frequencies without [y], for one
    frequency and for a sequence, and leaves the instance in the same
    state. *)
Theorem exact_polar_without_azimuth (m : MTF) (f : R) (fs : list R) :
  exact_polar RectBivariateSpline (One f None) m
  = exact_xy RectBivariateSpline (One f None) m
  /\ exact_polar RectBivariateSpline (Many fs None) m
     = exact_xy RectBivariateSpline (Many fs None) m.
Proof.
  unfold exact_polar, exact_xy.
  destruct (make_interp_function RectBivariateSpline m) as [[interpf|e] m'];
    [|split; reflexivity].
  split.
  - now rewrite polar_to_cart_azimuth_0.
  - f_equal. f_equal. f_equal. apply map_ext_in. intros [freq az] Hin.
    apply in_combine_r in Hin. apply repeat_spec in Hin. subst az.
    now rewrite polar_to_cart_azimuth_0.
Qed.

(** X10: The interpolant is built once and kept.  After a query that returned,
    the instance holds an interpolant and its data, axis and centre are as
    before; every later query answers from that interpolant without
    calling the constructor again, and leaves the instance as it is --
    also when the data of the instance has been replaced in the meantime
    (the interpolant is then stale). *)
Theorem interpolant_is_built_once (q : query) (m m' : MTF) (r : answer) :
  exact_xy RectBivariateSpline q m = (Ok r, m') ->
  (exists interpf, mtf_interpf m' = Some interpf)
  /\ mtf_data m' = mtf_data m
  /\ mtf_unit m' = mtf_unit m
  /\ mtf_center m' = mtf_center m
  /\ forall other_constructor q' data unit,
       let changed := mkMTF data unit (mtf_samples m') (mtf_center m')
                            (mtf_interpf m') in
       exact_xy other_constructor q' m' = (fst (exact_xy RectBivariateSpline q' m'), m')
       /\ exact_polar other_constructor q' m'
          = (fst (exact_polar RectBivariateSpline q' m'), m')
       /\ fst (exact_xy other_constructor q' changed)
          = fst (exact_xy RectBivariateSpline q' m').
Proof.
  unfold exact_xy at 1. unfold make_interp_function.
  destruct (mtf_interpf m) as [f|] eqn:Ef.
  - intros H. injection H as _ <-. rewrite Ef.
    split; [now exists f|]. repeat split;
      unfold exact_xy, exact_polar, make_interp_function; cbn [mtf_interpf];
      rewrite ?Ef; reflexivity.
  - destruct (RectBivariateSpline _ _ _) as [f|e]; [|discriminate].
    intros H. injection H as _ <-. cbn [mtf_interpf mtf_data mtf_unit mtf_center].
    split; [now exists f|]. repeat split.
Qed.

End QueriesMore.

Lemma interpolant_is_built_once_witness :
  (exists interpf, Otf.mtf_interpf Inputs.mtf3_cached = Some interpf)
  /\ Otf.mtf_data Inputs.mtf3_cached = Otf.mtf_data Inputs.mtf3
  /\ Otf.mtf_unit Inputs.mtf3_cached = Otf.mtf_unit Inputs.mtf3
  /\ Otf.mtf_center Inputs.mtf3_cached = Otf.mtf_center Inputs.mtf3
  /\ forall other_constructor q' data unit,
       let changed := Otf.mkMTF data unit (Otf.mtf_samples Inputs.mtf3_cached)
                            (Otf.mtf_center Inputs.mtf3_cached)
                            (Otf.mtf_interpf Inputs.mtf3_cached) in
       Otf.exact_xy other_constructor q' Inputs.mtf3_cached
       = (fst (Otf.exact_xy Inputs.plane_spline q' Inputs.mtf3_cached), Inputs.mtf3_cached)
       /\ Otf.exact_polar other_constructor q' Inputs.mtf3_cached
          = (fst (Otf.exact_polar Inputs.plane_spline q' Inputs.mtf3_cached),
             Inputs.mtf3_cached)
       /\ fst (Otf.exact_xy other_constructor q' changed)
          = fst (Otf.exact_xy Inputs.plane_spline q' Inputs.mtf3_cached).
Proof.
  apply (interpolant_is_built_once Inputs.plane_spline (Otf.One 0%R None) Inputs.mtf3
           Inputs.mtf3_cached (Otf.Value (Inputs.plane_ev 0 0)%R)).
  reflexivity.
Defined.

(** * The diffraction limit: further properties *)

Section DiffractionMore.

Import Otf.

Local Open Scope R_scope.

(** X15: [diffraction_limited_mtf] rejects a negative number of points with
    [ValueError] and, for any other number of points (also 0), a zero
    wavelength or f-number with [ZeroDivisionError]. *)
Theorem diffraction_limited_mtf_rejects (fno wavelength : R) (num_pts : Z) :
  ((num_pts < 0)%Z ->
   diffraction_limited_mtf fno wavelength num_pts = Raise ValueError)
  /\ ((0 <= num_pts)%Z -> wavelength * fno = 0 ->
      diffraction_limited_mtf fno wavelength num_pts = Raise ZeroDivisionError).
Proof.
  unfold diffraction_limited_mtf, linspace, py_div. split.
  - intros H. destruct (Z.ltb_spec num_pts 0); [reflexivity|lia].
  - intros H Hz. destruct (Z.ltb_spec num_pts 0); [lia|]. cbn [rbind].
    destruct (Req_dec_T (wavelength / 1000 * fno) 0) as [_|Hne]; [reflexivity|].
    exfalso. apply Hne. unfold Rdiv.
    replace (wavelength * / 1000 * fno) with (wavelength * fno * / 1000) by ring.
    rewrite Hz. ring.
Qed.

Lemma diffraction_limited_mtf_rejects_witness :
  diffraction_limited_mtf 2 (1 / 2) (-1) = Raise ValueError
  /\ diffraction_limited_mtf 0 (1 / 2) 128 = Raise ZeroDivisionError.
Proof.
  split.
  - apply (proj1 (diffraction_limited_mtf_rejects 2 (1 / 2) (-1))). lia.
  - apply (proj2 (diffraction_limited_mtf_rejects 0 (1 / 2) 128)); [lia|lra].
Defined.

(** X16: The frequency axis that [diffraction_limited_mtf] returns has
    [num_pts] entries, starts at 0 and ends at the cutoff frequency
    [1000 / (wavelength * fno)]. *)
Theorem diffraction_limited_mtf_axis (fno wavelength : R) (num_pts : Z) :
  wavelength * fno <> 0 -> (2 <= num_pts)%Z ->
  exists freqs mtf,
    diffraction_limited_mtf fno wavelength num_pts = Ok (freqs, mtf)
    /\ Py.len freqs = num_pts
    /\ Py.index freqs 0 = Ok 0
    /\ Py.index freqs (-1) = Ok (1000 / (wavelength * fno)).
Proof.
  intros Hne Hn. unfold diffraction_limited_mtf.
  destruct (linspace_ends 0 1 num_pts Hn) as (mid & -> & Hmid).
  unfold py_div. destruct (Req_dec_T (wavelength / 1000 * fno) 0) as [E|_].
  { exfalso. apply Hne. unfold Rdiv in E. nra. }
  cbn [rbind]. eexists. eexists. split; [reflexivity|].
  rewrite map_cons, map_app. cbn [map].
  split; [|split].
  - unfold Py.len. cbn [length]. rewrite length_app, length_map, Hmid. simpl. lia.
  - unfold Py.index. cbn. f_equal. ring.
  - rewrite app_comm_cons, index_last_app. f_equal. field.
    split; intros H; apply Hne; rewrite H; ring.
Qed.

Lemma diffraction_limited_mtf_axis_witness :
  exists freqs mtf,
    diffraction_limited_mtf 2 (1 / 2) 128 = Ok (freqs, mtf)
    /\ Py.len freqs = 128%Z
    /\ Py.index freqs 0 = Ok 0
    /\ Py.index freqs (-1) = Ok (1000 / (1 / 2 * 2)).
Proof.
  apply (diffraction_limited_mtf_axis 2 (1 / 2) 128); [lra|lia].
Defined.

(** Every point of [linspace(0, 1, num)] lies in [[0, 1]]. *)
Lemma linspace_unit_range (num : Z) (l : list R) :
  linspace 0 1 num = Ok l -> Forall (fun f => 0 <= f <= 1) l.
Proof.
  unfold linspace. destruct (Z.ltb_spec num 0) as [_|_]; [discriminate|].
  intros Hl. injection Hl as <-.
  destruct (Z.to_nat num) as [|[|n]].
  - constructor.
  - constructor; [lra|constructor].
  - apply Forall_app. split; [|constructor; [lra|constructor]].
    apply Forall_map, Forall_forall. intros i Hi. apply in_seq in Hi.
    replace (S (S n) - 1)%nat with (S n) by lia.
    assert (Hpos : 0 < INR (S n)) by (apply lt_0_INR; lia).
    assert (Hi' : INR i <= INR (S n)) by (apply le_INR; lia).
    assert (Hi0 : 0 <= INR i) by apply pos_INR.
    unfold Rdiv. rewrite Rminus_0_r, Rmult_1_l, Rplus_0_r.
    split.
    + apply Rmult_le_pos; [exact Hi0|]. left. now apply Rinv_0_lt_compat.
    + apply (Rmult_le_reg_r (INR (S n))); [exact Hpos|].
      rewrite Rmult_assoc, Rinv_l by lra. lra.
Qed.

(** The diffraction-limited MTF of a normalized frequency in [[0, 1]] lies
    in [[0, 1]]. *)
Lemma airy_mtf_range (f : R) :
  0 <= f <= 1 -> 0 <= 2 / PI * (acos f - f * sqrt (1 - f ^ 2)) <= 1.
Proof.
  intros Hf. pose proof PI_RGT_0 as HPI.
  assert (Hf1 : -1 <= f <= 1) by lra.
  pose proof (acos_bound f) as Hb.
  pose proof (cos_acos f Hf1) as Hcos.
  pose proof (sin_acos f Hf1) as Hsin.
  replace (1 - f ^ 2) with (1 - f²) by (unfold Rsqr; ring).
  rewrite <- Hsin. set (t := acos f) in *.
  assert (Ht : t <= PI / 2).
  { destruct (Rle_lt_dec t (PI / 2)) as [H|H]; [exact H|].
    assert (cos t < 0) by (apply cos_lt_0; lra). lra. }
  assert (Hs0 : 0 <= sin t) by (apply sin_ge_0; lra).
  assert (Hst : sin t <= t).
  { destruct (Req_dec_T t 0) as [->|Hne]; [rewrite sin_0; lra|].
    left. apply sin_lt_x. lra. }
  assert (Hprod : 0 <= f * sin t <= t) by nra.
  assert (Hinv : 0 < / PI) by now apply Rinv_0_lt_compat.
  unfold Rdiv. split.
  - apply Rmult_le_pos; [nra|lra].
  - apply (Rmult_le_reg_r PI); [exact HPI|].
    replace (2 * / PI * (t - f * sin t) * PI)
      with (2 * (t - f * sin t) * (/ PI * PI)) by ring.
    rewrite Rinv_l by lra. lra.
Qed.

(** X17: Whenever [diffraction_limited_mtf] returns, every value of its [mtf]
    array lies between 0 and 1. *)
Theorem diffraction_limited_mtf_range
    (fno wavelength : R) (num_pts : Z) (freqs mtf : list R) :
  diffraction_limited_mtf fno wavelength num_pts = Ok (freqs, mtf) ->
  Forall (fun v => 0 <= v <= 1) mtf.
Proof.
  unfold diffraction_limited_mtf.
  destruct (linspace 0 1 num_pts) as [nf|] eqn:El; [|discriminate].
  cbn [rbind]. destruct (py_div _ _); [|discriminate]. cbn [rbind].
  intros H. injection H as _ <-.
  apply Forall_map. eapply Forall_impl; [|exact (linspace_unit_range _ _ El)].
  intros f Hf. now apply airy_mtf_range.
Qed.

Lemma diffraction_limited_mtf_range_witness :
  Forall (fun v => 0 <= v <= 1)
         [2 / PI * (acos 0 - 0 * sqrt (1 - 0 ^ 2));
          2 / PI * (acos 1 - 1 * sqrt (1 - 1 ^ 2))].
Proof.
  apply (diffraction_limited_mtf_range 2 (1 / 2) 2
           [0 * (1 / (1 / 2 / 1000 * 2)); 1 * (1 / (1 / 2 / 1000 * 2))]).
  unfold diffraction_limited_mtf, linspace, py_div. cbn [Z.ltb Z.compare Z.to_nat].
  change (Pos.to_nat 2) with 2%nat. cbn [rbind seq map app Nat.sub].
  destruct (Req_dec_T (1 / 2 / 1000 * 2) 0) as [E|_]; [lra|].
  cbn [rbind map]. change (INR 0) with 0. change (INR 1) with 1.
  repeat f_equal; field.
Defined.

End DiffractionMore.

(** * Cartesian to polar and back *)

Section CartesianPolar.

Import Coordinates.

Local Open Scope R_scope.

Lemma hypot_pos (x y : R) : x <> 0 -> 0 < sqrt (x ^ 2 + y ^ 2).
Proof. intros H. apply sqrt_lt_R0. nra. Qed.

(** [sqrt (1 + (y/x)^2)] in terms of the radius. *)
Lemma sqrt_one_plus_slope (x y : R) :
  x <> 0 -> sqrt (1 + (y / x)²) = sqrt (x ^ 2 + y ^ 2) / Rabs x.
Proof.
  intros Hx.
  assert (Ha : 0 < Rabs x) by now apply Rabs_pos_lt.
  apply sqrt_lem_1.
  - unfold Rsqr. nra.
  - apply Rmult_le_pos; [apply sqrt_pos|]. left. now apply Rinv_0_lt_compat.
  - unfold Rdiv.
    replace (sqrt (x ^ 2 + y ^ 2) * / Rabs x * (sqrt (x ^ 2 + y ^ 2) * / Rabs x))
      with (sqrt (x ^ 2 + y ^ 2) * sqrt (x ^ 2 + y ^ 2) * (/ Rabs x * / Rabs x))
      by ring.
    rewrite sqrt_sqrt by nra.
    rewrite <- Rinv_mult. replace (Rabs x * Rabs x) with (x * x).
    + unfold Rsqr. field. exact Hx.
    + unfold Rabs. destruct (Rcase_abs x); ring.
Qed.

(** The cosine and sine of [atan (y / x)]. *)
Lemma cos_sin_atan_slope (x y : R) :
  x <> 0 ->
  let rho := sqrt (x ^ 2 + y ^ 2) in
  rho * cos (atan (y / x)) = Rabs x
  /\ rho * sin (atan (y / x)) = y / x * Rabs x.
Proof.
  intros Hx rho. pose proof (hypot_pos x y Hx) as Hr. fold rho in Hr.
  assert (Ha : 0 < Rabs x) by now apply Rabs_pos_lt.
  rewrite cos_atan, sin_atan, sqrt_one_plus_slope by exact Hx. fold rho.
  split; field; split; lra.
Qed.

(** [atan2] stays within a half turn of the positive x axis. *)
Lemma atan2_range (y x : R) : - PI < atan2 y x <= PI.
Proof.
  pose proof PI_RGT_0 as HPI. unfold atan2.
  pose proof (atan_bound (y / x)) as Hb.
  destruct (Rlt_dec 0 x) as [Hx|Hx]; [lra|].
  destruct (Rlt_dec x 0) as [Hx'|Hx'].
  - assert (Hinv : / x < 0) by now apply Rinv_lt_0_compat.
    destruct (Rle_dec 0 y) as [Hy|Hy].
    + assert (atan (y / x) <= 0).
      { destruct (Req_dec_T y 0) as [->|Hne].
        - unfold Rdiv. rewrite Rmult_0_l, atan_0. lra.
        - left. rewrite <- atan_0. apply atan_increasing. unfold Rdiv. nra. }
      lra.
    + assert (0 < atan (y / x)).
      { rewrite <- atan_0. apply atan_increasing. unfold Rdiv. nra. }
      lra.
  - destruct (Rlt_dec 0 y); [lra|]. destruct (Rlt_dec y 0); lra.
Qed.

(** X18: [cart_to_polar] gives a radius that is not negative and an angle in
    [(-PI, PI]], and [polar_to_cart] takes them back to the point: the
    conversions are inverse to each other on the whole plane. *)
Theorem cart_polar_roundtrip (x y : R) :
  let rho := fst (cart_to_polar x y) in
  let phi := snd (cart_to_polar x y) in
  0 <= rho /\ - PI < phi <= PI /\ polar_to_cart rho phi = (x, y).
Proof.
  intros rho phi. unfold rho, phi, cart_to_polar, polar_to_cart. cbn [fst snd].
  split; [apply sqrt_pos|]. split; [apply atan2_range|].
  unfold atan2.
  destruct (Rlt_dec 0 x) as [Hx|Hx].
  - destruct (cos_sin_atan_slope x y) as [Hc Hs]; [lra|].
    rewrite Hc, Hs, Rabs_right by lra. f_equal. field. lra.
  - destruct (Rlt_dec x 0) as [Hx'|Hx'].
    + destruct (cos_sin_atan_slope x y) as [Hc Hs]; [lra|].
      rewrite Rabs_left in Hc, Hs by lra.
      destruct (Rle_dec 0 y) as [Hy|Hy].
      * rewrite neg_cos, neg_sin. f_equal.
        -- rewrite Ropp_mult_distr_r_reverse, Hc. ring.
        -- rewrite Ropp_mult_distr_r_reverse, Hs. field. lra.
      * replace (atan (y / x) - PI) with (- (- atan (y / x) + PI)) by ring.
        rewrite cos_neg, sin_neg, neg_cos, neg_sin, cos_neg, sin_neg. f_equal.
        -- rewrite Ropp_mult_distr_r_reverse, Hc. ring.
        -- rewrite Ropp_involutive, Ropp_mult_distr_r_reverse, Hs. field. lra.
    + assert (x = 0) by lra. subst x.
      replace (0 ^ 2 + y ^ 2) with (y²) by (unfold Rsqr; ring).
      rewrite sqrt_Rsqr_abs.
      destruct (Rlt_dec 0 y) as [Hy|Hy].
      * rewrite cos_PI2, sin_PI2, Rabs_right by lra. f_equal; ring.
      * destruct (Rlt_dec y 0) as [Hy'|Hy'].
        -- rewrite cos_neg, sin_neg, cos_PI2, sin_PI2, Rabs_left by lra.
           f_equal; ring.
        -- assert (y = 0) by lra. subst y.
           rewrite Rabs_R0. f_equal; ring.
Qed.

End CartesianPolar.

(** * The configuration *)

Section ConfFacts.

Import Conf.

Local Open Scope Z_scope.









(** X20: A setter that raises raises [ValueError] and changes nothing;
    [set_precision] accepts exactly 32 and 64, [set_zernike_base] exactly 0
    and 1, and [set_backend] exactly the spellings of ['np'] and ['numpy']
    in any letter case, which it stores as ['np']. *)
Theorem setters_validate (g : globals) :
  (forall p, (p = 32 \/ p = 64) <-> fst (set_precision p g) = Ok tt)
  /\ (forall z, (z = 0 \/ z = 1) <-> fst (set_zernike_base z g) = Ok tt)
  /\ (forall b, (Py.lower b = "np"%string \/ Py.lower b = "numpy"%string)
                <-> (fst (set_backend b g) = Ok tt
                     /\ g_backend (snd (set_backend b g)) = "np"%string))
  /\ (forall p e g', set_precision p g = (Raise e, g') -> e = ValueError /\ g' = g)
  /\ (forall z e g', set_zernike_base z g = (Raise e, g') -> e = ValueError /\ g' = g)
  /\ (forall b e g', set_backend b g = (Raise e, g') -> e = ValueError /\ g' = g).
Proof.
  repeat split.
  - intros [->| ->]; reflexivity.
  - unfold set_precision.
    destruct (Z.eqb_spec p 32); [auto|]. destruct (Z.eqb_spec p 64); [auto|].
    discriminate.
  - intros [->| ->]; reflexivity.
  - unfold set_zernike_base.
    destruct (Z.eqb_spec z 0); [auto|]. destruct (Z.eqb_spec z 1); [auto|].
    discriminate.
  - unfold set_backend. destruct H as [-> | ->]; reflexivity.
  - unfold set_backend. destruct H as [-> | ->]; reflexivity.
  - unfold set_backend. intros [H _].
    destruct (String.eqb_spec (Py.lower b) "np"); [auto|].
    destruct (String.eqb_spec (Py.lower b) "numpy"); [auto|].
    discriminate.
  - unfold set_precision in H. destruct (negb _); [|destruct (p =? 32)];
      now inversion H.
  - unfold set_precision in H. destruct (negb _); [|destruct (p =? 32)];
      now inversion H.
  - unfold set_zernike_base in H. destruct (negb _); now inversion H.
  - unfold set_zernike_base in H. destruct (negb _); now inversion H.
  - unfold set_backend in H. destruct (negb _); now inversion H.
  - unfold set_backend in H. destruct (negb _); now inversion H.
Qed.

Lemma setters_validate_witness :
  fst (set_backend "NumPy" loaded_globals) = Ok tt
  /\ g_backend (snd (set_backend "NumPy" loaded_globals)) = "np"%string.
Proof.
  apply (proj1 (proj1 (proj2 (proj2 (setters_validate loaded_globals))) "NumPy"%string)).
  right. reflexivity.
Defined.

(** X21: The constructor is not atomic: with a valid precision and a backend
    that is not numpy it raises [ValueError], and by then the precision and
    the parallel flag of the call are already stored in the globals (the
    backend and the zernike base are as before). *)
Theorem init_leaves_partial_update
    (p : Z) (r : bool) (b : string) (z : Z) (g : globals) :
  p = 32 \/ p = 64 ->
  Py.lower b <> "np"%string -> Py.lower b <> "numpy"%string ->
  exists g',
    init p r b z g = (Raise ValueError, g')
    /\ g_precision g' = (if p =? 32 then float32 else float64)
    /\ g_precision_complex g' = (if p =? 32 then complex64 else complex128)
    /\ g_parallel_rgb g' = r
    /\ g_backend g' = g_backend g
    /\ g_zernike_base g' = g_zernike_base g.
Proof.
  intros Hp Hb1 Hb2. unfold init, then_, set_backend.
  destruct (String.eqb_spec (Py.lower b) "np"); [contradiction|].
  destruct (String.eqb_spec (Py.lower b) "numpy"); [contradiction|].
  destruct Hp as [-> | ->]; eexists; repeat split.
Qed.

Lemma init_leaves_partial_update_witness :
  exists g',
    init 32 false "torch" 1 loaded_globals = (Raise ValueError, g')
    /\ g_precision g' = float32
    /\ g_precision_complex g' = complex64
    /\ g_parallel_rgb g' = false
    /\ g_backend g' = "np"%string
    /\ g_zernike_base g' = 1.
Proof.
  apply (init_leaves_partial_update 32 false "torch"%string 1 loaded_globals);
    [now left|discriminate|discriminate].
Defined.

End ConfFacts.

(** * The analytic kernels: arrays with single entries set *)

Section ItemAssignment.

Import Kernels.

Lemma replace_nth_cons {A : Type} (k : nat) (v x : A) (l : list A) :
  replace_nth (S k) v (x :: l) = x :: replace_nth k v l.
Proof. reflexivity. Qed.

Lemma length_replace_nth {A : Type} (k : nat) (v : A) (l : list A) :
  length (replace_nth k v l) = length l.
Proof.
  revert k. induction l as [|x l IH]; intros [|k]; try reflexivity.
  rewrite replace_nth_cons. cbn [length]. now rewrite IH.
Qed.

Lemma nth_replace_nth {A : Type} (k k' : nat) (v d : A) (l : list A) :
  (k < length l)%nat ->
  nth k' (replace_nth k v l) d = if (k' =? k)%nat then v else nth k' l d.
Proof.
  revert k k'. induction l as [|x l IH]; intros k k' Hk; [simpl in Hk; lia|].
  destruct k as [|k].
  - destruct k' as [|k']; reflexivity.
  - rewrite replace_nth_cons. destruct k' as [|k']; [reflexivity|].
    cbn [nth]. rewrite IH by (simpl in Hk; lia). reflexivity.
Qed.

Lemma Forall_replace_nth {A : Type} (P : A -> Prop) (k : nat) (v : A) (l : list A) :
  P v -> Forall P l -> Forall P (replace_nth k v l).
Proof.
  intros Hv Hl. revert k. induction Hl as [|x l Hx Hl IH]; intros [|k].
  - constructor.
  - constructor.
  - unfold replace_nth. cbn. now constructor.
  - rewrite replace_nth_cons. constructor; [exact Hx|apply IH].
Qed.

Lemma axis_index_inside (n i : Z) :
  (0 <= i < n)%Z -> axis_index n i = Ok (Z.to_nat i).
Proof.
  intros H. unfold axis_index.
  destruct (Z.ltb_spec i 0); [lia|].
  destruct (Z.ltb_spec i 0); [lia|]. destruct (Z.leb_spec n i); [lia|].
  reflexivity.
Qed.

Lemma axis_index_high (n i : Z) :
  (0 <= n <= i)%Z -> axis_index n i = Raise IndexError.
Proof.
  intros H. unfold axis_index.
  destruct (Z.ltb_spec i 0); [lia|].
  destruct (Z.ltb_spec i 0); [lia|]. destruct (Z.leb_spec n i); [|lia].
  reflexivity.
Qed.

Lemma axis_index_range (n i : Z) (k : nat) :
  axis_index n i = Ok k -> (k < Z.to_nat n)%nat.
Proof.
  unfold axis_index.
  destruct (Z.ltb_spec (if (i <? 0)%Z then (i + n)%Z else i) 0); [discriminate|].
  destruct (Z.leb_spec n (if (i <? 0)%Z then (i + n)%Z else i)); [discriminate|].
  intros H'. injection H' as <-. lia.
Qed.

(** An [n] by [n] array. *)
Lemma ncols_square (n : nat) (a : Np.array2) :
  length a = n -> Forall (fun row => length row = n) a -> Otf.ncols a = n.
Proof.
  intros Hl Hr. destruct a as [|r a]; [exact Hl|].
  inversion Hr. assumption.
Qed.

Lemma nth_row_length (n : nat) (a : Np.array2) (r : nat) :
  Forall (fun row => length row = n) a -> (r < length a)%nat ->
  length (nth r a []) = n.
Proof.
  intros Hr Hlt. rewrite Forall_forall in Hr. apply Hr. now apply nth_In.
Qed.

(** Whenever [a[i, j] = v] returns on an [n] by [n] array, the array is
    still [n] by [n]. *)
Lemma set_item_shape (n : nat) (a a' : Np.array2) (i j : Z) (v : Q) :
  length a = n -> Forall (fun row => length row = n) a ->
  set_item a i j v = Ok a' ->
  length a' = n /\ Forall (fun row => length row = n) a'.
Proof.
  intros Hl Hr. unfold set_item.
  destruct (axis_index (Py.len a) i) as [r|] eqn:Ei; [|discriminate].
  destruct (axis_index _ j) as [c|] eqn:Ej; [|discriminate].
  cbn [rbind]. intros H. injection H as <-.
  apply axis_index_range in Ei. unfold Py.len in Ei. rewrite Nat2Z.id in Ei.
  split.
  - now rewrite length_replace_nth.
  - apply Forall_replace_nth; [|exact Hr].
    rewrite length_replace_nth. now apply nth_row_length.
Qed.

Lemma set_item_error (a : Np.array2) (i j : Z) (v : Q) (e : pyerr) :
  set_item a i j v = Raise e -> e = IndexError.
Proof.
  unfold set_item, axis_index.
  repeat match goal with
         | |- context [if ?b then Raise IndexError else _] => destruct b
         end; cbn [rbind]; intros H; now inversion H.
Qed.

(** [a[i, j] = v] with both indices inside an [n] by [n] array. *)
Lemma set_item_inside (n : nat) (a : Np.array2) (i j : Z) (v : Q) :
  length a = n -> Forall (fun row => length row = n) a ->
  (0 <= i < Z.of_nat n)%Z -> (0 <= j < Z.of_nat n)%Z ->
  exists a',
    set_item a i j v = Ok a'
    /\ forall p q,
         entry a' p q
         = if ((Z.of_nat p =? i) && (Z.of_nat q =? j))%Z then v else entry a p q.
Proof.
  intros Hl Hr Hi Hj. unfold set_item.
  rewrite axis_index_inside by (unfold Py.len; lia).
  rewrite (ncols_square n a Hl Hr), axis_index_inside by lia.
  cbn [rbind]. eexists. split; [reflexivity|].
  intros p q. unfold entry.
  rewrite nth_replace_nth by lia.
  destruct (Nat.eqb_spec p (Z.to_nat i)) as [->|Hp].
  - rewrite Z2Nat.id, Z.eqb_refl by lia. cbn [andb].
    rewrite nth_replace_nth
      by (rewrite (nth_row_length n a (Z.to_nat i) Hr) by lia; lia).
    destruct (Nat.eqb_spec q (Z.to_nat j)) as [->|Hq].
    + now rewrite Z2Nat.id, Z.eqb_refl by lia.
    + destruct (Z.eqb_spec (Z.of_nat q) j); [lia|reflexivity].
  - destruct (Z.eqb_spec (Z.of_nat p) i); [lia|reflexivity].
Qed.

Lemma set_item_too_high (n : nat) (a : Np.array2) (i j : Z) (v : Q) :
  length a = n -> Forall (fun row => length row = n) a ->
  (Z.of_nat n <= i \/ Z.of_nat n <= j)%Z ->
  set_item a i j v = Raise IndexError.
Proof.
  intros Hl Hr H. unfold set_item.
  destruct (axis_index (Py.len a) i) as [r|e] eqn:Ei; cbn [rbind].
  - destruct H as [H|H].
    + rewrite axis_index_high in Ei by (unfold Py.len; lia). discriminate.
    + rewrite (ncols_square n a Hl Hr), axis_index_high by lia. reflexivity.
  - unfold axis_index in Ei.
    destruct (_ || _) in Ei; now inversion Ei.
Qed.

Lemma zeros_square (n : Z) :
  (0 <= n)%Z ->
  exists a, zeros n n = Ok a
            /\ length a = Z.to_nat n
            /\ Forall (fun row => length row = Z.to_nat n) a
            /\ forall p q, entry a p q = 0%Q.
Proof.
  intros H. unfold zeros. destruct (Z.ltb_spec n 0); [lia|]. cbn [orb].
  eexists. split; [reflexivity|]. split; [apply repeat_length|]. split.
  - apply Forall_forall. intros row Hin. apply repeat_spec in Hin. subst row.
    apply repeat_length.
  - intros p q. unfold entry.
    destruct (Nat.lt_ge_cases p (Z.to_nat n)) as [Hp|Hp].
    + rewrite (nth_indep _ [] (repeat 0%Q (Z.to_nat n)))
        by (now rewrite repeat_length).
      rewrite nth_repeat.
      destruct (Nat.lt_ge_cases q (Z.to_nat n)) as [Hq|Hq].
      * apply nth_repeat.
      * apply nth_overflow. now rewrite repeat_length.
    + rewrite (nth_overflow _ []) by (now rewrite repeat_length).
      now destruct q.
Qed.

End ItemAssignment.

(** * The optical low-pass filter *)

Section OlpfFacts.

Import Kernels.

Local Open Scope Z_scope.

(** X22: Where the four impulses go when they fit: with the centre at
    [floor(samples / 2)] and both shifts short of the far edge, the OLPF
    is built, its data is [samples] by [samples], and an entry is 1
    exactly at the rows [center - shift_x], [center + shift_x] and the
    columns [center - shift_y], [center + shift_y], and 0 elsewhere; no
    index wraps around. *)
Theorem OLPF_impulses (width_x : Q) (width_y : option Q) (sample_spacing : Q)
    (samples : Z) :
  let wy := match width_y with None => width_x | Some w => w end in
  let shift_x := Qfloor (width_x / 2 / sample_spacing) in
  let shift_y := Qfloor (wy / 2 / sample_spacing) in
  let center := samples / 2 in
  ~ (sample_spacing == 0)%Q ->
  center + Z.abs shift_x < samples ->
  center + Z.abs shift_y < samples ->
  exists o,
    OLPF_init width_x width_y sample_spacing samples = Ok o
    /\ Py.len (olpf_data o) = samples
    /\ Forall (fun row => Py.len row = samples) (olpf_data o)
    /\ forall i j,
         entry (olpf_data o) i j
         = if ((Z.of_nat i =? center - shift_x) || (Z.of_nat i =? center + shift_x))
              && ((Z.of_nat j =? center - shift_y) || (Z.of_nat j =? center + shift_y))
           then 1%Q else 0%Q.
Proof.
  intros wy shift_x shift_y center Hs Hx Hy.
  assert (Hn : 0 < samples).
  { destruct (Z.lt_ge_cases 0 samples) as [H|H]; [exact H|]. exfalso.
    unfold center in Hx. pose proof (Z.div_mod samples 2).
    pose proof (Z.mod_pos_bound samples 2). lia. }
  assert (Hc : 0 <= center /\ samples <= 2 * center + 1).
  { unfold center. pose proof (Z.div_mod samples 2).
    pose proof (Z.mod_pos_bound samples 2). lia. }
  unfold OLPF_init, floor_ratio, Detector.truediv.
  destruct (Qeq_bool sample_spacing 0) eqn:E;
    [apply Qeq_bool_eq in E; contradiction|].
  cbn [rbind]. fold wy shift_x shift_y center.
  destruct (zeros_square samples ltac:(lia)) as (a0 & -> & Hl0 & Hr0 & He0).
  cbn [rbind].
  set (n := Z.to_nat samples) in *.
  assert (HnZ : Z.of_nat n = samples) by (unfold n; lia).
  destruct (set_item_inside n a0 (center - shift_x) (center - shift_y) 1 Hl0 Hr0)
    as (a1 & E1 & He1); [lia|lia|].
  destruct (set_item_shape n a0 a1 _ _ _ Hl0 Hr0 E1) as [Hl1 Hr1].
  destruct (set_item_inside n a1 (center - shift_x) (center + shift_y) 1 Hl1 Hr1)
    as (a2 & E2 & He2); [lia|lia|].
  destruct (set_item_shape n a1 a2 _ _ _ Hl1 Hr1 E2) as [Hl2 Hr2].
  destruct (set_item_inside n a2 (center + shift_x) (center - shift_y) 1 Hl2 Hr2)
    as (a3 & E3 & He3); [lia|lia|].
  destruct (set_item_shape n a2 a3 _ _ _ Hl2 Hr2 E3) as [Hl3 Hr3].
  destruct (set_item_inside n a3 (center + shift_x) (center + shift_y) 1 Hl3 Hr3)
    as (a4 & E4 & He4); [lia|lia|].
  destruct (set_item_shape n a3 a4 _ _ _ Hl3 Hr3 E4) as [Hl4 Hr4].
  rewrite E1. cbn [rbind]. rewrite E2. cbn [rbind].
  rewrite E3. cbn [rbind]. rewrite E4. cbn [rbind].
  eexists. split; [reflexivity|]. cbn [olpf_data].
  split; [unfold Py.len; lia|]. split.
  - eapply Forall_impl; [|exact Hr4]. intros row Hrow. cbv beta in Hrow.
    unfold Py.len. lia.
  - intros i j. rewrite He4, He3, He2, He1, He0.
    destruct (Z.of_nat i =? center - shift_x), (Z.of_nat i =? center + shift_x),
             (Z.of_nat j =? center - shift_y), (Z.of_nat j =? center + shift_y);
      reflexivity.
Qed.

Lemma OLPF_impulses_witness :
  exists o,
    OLPF_init 4 None 1 8 = Ok o
    /\ Py.len (olpf_data o) = 8
    /\ Forall (fun row => Py.len row = 8) (olpf_data o)
    /\ forall i j,
         entry (olpf_data o) i j
         = if ((Z.of_nat i =? 2) || (Z.of_nat i =? 6))
              && ((Z.of_nat j =? 2) || (Z.of_nat j =? 6))
           then 1%Q else 0%Q.
Proof.
  apply (OLPF_impulses 4 None 1 8).
  - intros H. discriminate H.
  - reflexivity.
  - reflexivity.
Defined.

(** One assignment of [OLPF.__init__]: it raises [IndexError], or it
    returns an array of the same shape. *)
Ltac olpf_assignment n Hl Hr a' Hl' Hr' :=
  match goal with
  | |- context [set_item ?a ?i ?j ?v] =>
      let E := fresh "E" in
      destruct (set_item a i j v) as [a'|?e] eqn:E; cbn [rbind];
      [ destruct (set_item_shape n a a' i j v Hl Hr E) as [Hl' Hr']
      | apply set_item_error in E; rewrite E; reflexivity ]
  end.

(** X23: When [OLPF.__init__] fails: a zero sample spacing raises
    [ZeroDivisionError]; otherwise a negative sample count raises
    [ValueError]; otherwise a shift that reaches the far edge of the array
    ([center + |shift| >= samples], on either axis) raises [IndexError] --
    an impulse is never placed at a wrapped-around position of a finished
    OLPF. *)
Theorem OLPF_rejects (width_x : Q) (width_y : option Q) (sample_spacing : Q)
    (samples : Z) :
  let wy := match width_y with None => width_x | Some w => w end in
  let shift_x := Qfloor (width_x / 2 / sample_spacing) in
  let shift_y := Qfloor (wy / 2 / sample_spacing) in
  let center := samples / 2 in
  ((sample_spacing == 0)%Q ->
   OLPF_init width_x width_y sample_spacing samples = Raise ZeroDivisionError)
  /\ (~ (sample_spacing == 0)%Q -> samples < 0 ->
      OLPF_init width_x width_y sample_spacing samples = Raise ValueError)
  /\ (~ (sample_spacing == 0)%Q -> 0 <= samples ->
      samples <= center + Z.abs shift_x \/ samples <= center + Z.abs shift_y ->
      OLPF_init width_x width_y sample_spacing samples = Raise IndexError).
Proof.
  intros wy shift_x shift_y center.
  unfold OLPF_init, floor_ratio, Detector.truediv.
  destruct (Qeq_bool sample_spacing 0) eqn:E; cbn [rbind].
  { apply Qeq_bool_iff in E. split; [reflexivity|]. split; intros H; contradiction. }
  fold wy shift_x shift_y center.
  split; [intros H; apply Qeq_bool_iff in H; congruence|]. split.
  - intros _ Hneg. unfold zeros. destruct (Z.ltb_spec samples 0); [|lia].
    reflexivity.
  - intros _ Hn Hbig.
    destruct (zeros_square samples Hn) as (a0 & -> & Hl0 & Hr0 & _).
    cbn [rbind]. set (n := Z.to_nat samples) in *.
    assert (HnZ : Z.of_nat n = samples) by (unfold n; lia).
    olpf_assignment n Hl0 Hr0 a1 Hl1 Hr1.
    destruct (Z.lt_ge_cases shift_x 0) as [Hsx|Hsx];
      [destruct Hbig as [Hbig|Hbig];
       [rewrite (set_item_too_high n a0) in E0 by (auto; lia); discriminate|]|].
    all: destruct (Z.lt_ge_cases shift_y 0) as [Hsy|Hsy];
      [try (rewrite (set_item_too_high n a0) in E0 by (auto; lia); discriminate)|].
    all: olpf_assignment n Hl1 Hr1 a2 Hl2 Hr2.
    all: try (rewrite (set_item_too_high n a1) in E1 by (auto; lia); discriminate).
    all: try (destruct Hbig as [Hbig|Hbig];
              [|rewrite (set_item_too_high n a1) in E1 by (auto; lia); discriminate]).
    all: olpf_assignment n Hl2 Hr2 a3 Hl3 Hr3.
    all: rewrite (set_item_too_high n a2) in E2 by (auto; lia); discriminate.
Qed.

Lemma OLPF_rejects_witness :
  OLPF_init 6 None 1 5 = Raise IndexError.
Proof.
  apply (proj2 (proj2 (OLPF_rejects 6 None 1 5))).
  - intros H. discriminate H.
  - intros H. discriminate H.
  - left. intros H. discriminate H.
Defined.

End OlpfFacts.

(** * The pixel aperture *)

Section PixelApertureFacts.

Import Kernels.

Local Open Scope Z_scope.

Lemma nth_map_enumerate {A B : Type} (f : nat * A -> B) (l : list A)
    (i : nat) (d : B) (d' : A) :
  (i < length l)%nat -> nth i (map f (Otf.enumerate l)) d = f (i, nth i l d').
Proof.
  intros Hi. unfold Otf.enumerate.
  rewrite (nth_indep _ d (f (0%nat, d')))
    by (rewrite length_map, length_combine, length_seq; lia).
  rewrite map_nth, combine_nth by (now rewrite length_seq).
  now rewrite seq_nth.
Qed.

Lemma length_map_enumerate {A B : Type} (f : nat * A -> B) (l : list A) :
  length (map f (Otf.enumerate l)) = length l.
Proof.
  unfold Otf.enumerate. rewrite length_map, length_combine, length_seq. lia.
Qed.

(** The entries of an [n] by [n] array after [a[r0:r1, c0:c1] = v]. *)
Lemma entry_set_block (n : nat) (a : Np.array2) (r0 r1 c0 c1 : Z) (v : Q) :
  length a = n -> Forall (fun row => length row = n) a ->
  forall i j,
    entry (set_block a r0 r1 c0 c1 v) i j
    = if ((Py.bound (Z.of_nat n) r0 <=? Z.of_nat i)
          && (Z.of_nat i <? Py.bound (Z.of_nat n) r1))
         && ((Py.bound (Z.of_nat n) c0 <=? Z.of_nat j)
             && (Z.of_nat j <? Py.bound (Z.of_nat n) c1))
      then v else entry a i j.
Proof.
  intros Hl Hr i j.
  pose proof (bound_range (Z.of_nat n) r1 ltac:(lia)) as Hb1.
  pose proof (bound_range (Z.of_nat n) c1 ltac:(lia)) as Hb2.
  unfold entry, set_block. unfold Py.len at 1 2. rewrite Hl.
  destruct (Nat.lt_ge_cases i n) as [Hi|Hi].
  - rewrite (nth_map_enumerate _ a i [] []) by lia.
    assert (Hrow : length (nth i a []) = n) by (apply nth_row_length; [exact Hr|lia]).
    unfold Py.len. rewrite Hrow.
    destruct ((Py.bound (Z.of_nat n) r0 <=? Z.of_nat i)
              && (Z.of_nat i <? Py.bound (Z.of_nat n) r1)); [|reflexivity].
    cbn [andb].
    destruct (Nat.lt_ge_cases j n) as [Hj|Hj].
    + now rewrite (nth_map_enumerate _ (nth i a []) j 0%Q 0%Q) by lia.
    + rewrite nth_overflow by (rewrite length_map_enumerate; lia).
      rewrite (nth_overflow (nth i a [])) by lia.
      destruct (Z.ltb_spec (Z.of_nat j) (Py.bound (Z.of_nat n) c1)); [lia|].
      now rewrite andb_false_r.
  - rewrite (nth_overflow _ []) by (rewrite length_map_enumerate; lia).
    rewrite (nth_overflow a) by lia.
    destruct (Z.ltb_spec (Z.of_nat i) (Py.bound (Z.of_nat n) r1)); [lia|].
    rewrite andb_false_r. reflexivity.
Qed.

Lemma set_block_shape (n : nat) (a : Np.array2) (r0 r1 c0 c1 : Z) (v : Q) :
  length a = n -> Forall (fun row => length row = n) a ->
  length (set_block a r0 r1 c0 c1 v) = n
  /\ Forall (fun row => length row = n) (set_block a r0 r1 c0 c1 v).
Proof.
  intros Hl Hr. unfold set_block. split.
  - now rewrite length_map_enumerate.
  - apply Forall_map, Forall_forall. intros [i row] Hin.
    unfold Otf.enumerate in Hin. apply in_combine_r in Hin.
    rewrite Forall_forall in Hr.
    destruct (_ && _); [rewrite length_map_enumerate|]; now apply Hr.
Qed.

(** X24: The data of a pixel aperture: [samples] by [samples], 1 on the rows
    and columns of the slice [center - steps : center + steps] and 0
    elsewhere.  When the aperture fits ([0 <= steps <= center]) these are
    the [2 * steps] indices from [center - steps] up to, and without,
    [center + steps].  When it is wider than the array
    ([center < steps < center + samples]) the start of the slice is
    negative and wraps around: only the indices from
    [samples + center - steps] on are lit, and entry [(0, 0)] stays 0. *)
Theorem PixelAperture_block (size sample_spacing : Q) (samples : Z) :
  let steps := Qfloor (size / 2 / sample_spacing) in
  let center := samples / 2 in
  let lit (k : nat) : bool :=
    (Py.bound samples (center - steps) <=? Z.of_nat k)
    && (Z.of_nat k <? Py.bound samples (center + steps)) in
  ~ (sample_spacing == 0)%Q ->
  0 <= samples ->
  exists pa,
    PixelAperture_init size sample_spacing samples = Ok pa
    /\ Py.len (pa_data pa) = samples
    /\ Forall (fun row => Py.len row = samples) (pa_data pa)
    /\ (forall i j, entry (pa_data pa) i j = if lit i && lit j then 1%Q else 0%Q)
    /\ (0 <= steps <= center ->
        forall k, lit k = (center - steps <=? Z.of_nat k)
                          && (Z.of_nat k <? center + steps))
    /\ (center < steps < center + samples ->
        (forall k, lit k = (samples + center - steps <=? Z.of_nat k)
                           && (Z.of_nat k <? samples))
        /\ entry (pa_data pa) 0 0 = 0%Q).
Proof.
  intros steps center lit Hs Hn.
  assert (Hc : 0 <= center /\ 2 * center <= samples <= 2 * center + 1).
  { unfold center. pose proof (Z.div_mod samples 2).
    pose proof (Z.mod_pos_bound samples 2). lia. }
  unfold PixelAperture_init, floor_ratio, Detector.truediv.
  destruct (Qeq_bool sample_spacing 0) eqn:E;
    [apply Qeq_bool_eq in E; contradiction|].
  cbn [rbind]. fold steps center.
  destruct (zeros_square samples Hn) as (a0 & -> & Hl0 & Hr0 & He0).
  cbn [rbind]. set (n := Z.to_nat samples) in *.
  assert (HnZ : Z.of_nat n = samples) by (unfold n; lia).
  destruct (set_block_shape n a0 (center - steps) (center + steps)
              (center - steps) (center + steps) 1 Hl0 Hr0) as [Hl1 Hr1].
  assert (Hentry : forall i j,
             entry (set_block a0 (center - steps) (center + steps)
                              (center - steps) (center + steps) 1) i j
             = if lit i && lit j then 1%Q else 0%Q).
  { intros i j. rewrite (entry_set_block n) by assumption.
    rewrite HnZ, He0. reflexivity. }
  eexists. split; [reflexivity|]. cbn [pa_data].
  split; [unfold Py.len; lia|]. split.
  { eapply Forall_impl; [|exact Hr1]. intros row Hrow. cbv beta in Hrow.
    unfold Py.len. lia. }
  split; [exact Hentry|]. split.
  - intros Hfit k. unfold lit. now rewrite !bound_inside by lia.
  - intros Hwide.
    assert (Hlit : forall k, lit k = (samples + center - steps <=? Z.of_nat k)
                                     && (Z.of_nat k <? samples)).
    { intros k. unfold lit, Py.bound.
      destruct (Z.ltb_spec (center - steps) 0); [|lia].
      destruct (Z.ltb_spec (center + steps) 0); [lia|].
      rewrite Z.max_r, Z.min_r by lia. f_equal. f_equal. lia. }
    split; [exact Hlit|].
    rewrite Hentry, Hlit.
    destruct (Z.leb_spec (samples + center - steps) (Z.of_nat 0)); [lia|].
    reflexivity.
Qed.

Lemma PixelAperture_block_witness :
  exists pa,
    PixelAperture_init 8 1 5 = Ok pa
    /\ (forall k, ((Py.bound 5 (2 - 4) <=? Z.of_nat k)
                   && (Z.of_nat k <? Py.bound 5 (2 + 4)))
                  = (5 + 2 - 4 <=? Z.of_nat k) && (Z.of_nat k <? 5))
    /\ entry (pa_data pa) 0 0 = 0%Q.
Proof.
  destruct (PixelAperture_block 8 1 5) as (pa & Hpa & _ & _ & _ & _ & Hwide).
  - intros H. discriminate H.
  - intros H. discriminate H.
  - exists pa. split; [exact Hpa|]. apply Hwide. split; reflexivity.
Defined.

End PixelApertureFacts.

(** * The pixel MTF and the analytic transforms *)

Section AnalyticFacts.

Import Analytic.

Local Open Scope R_scope.







Lemma sinc_neg (x : R) : sinc (- x) = sinc x.
Proof.
  unfold sinc.
  destruct (Req_dec_T (- x) 0) as [E|E], (Req_dec_T x 0) as [E'|E'];
    try reflexivity; try lra.
  replace (PI * - x) with (- (PI * x)) by ring. rewrite sin_neg.
  pose proof PI_RGT_0. field. split; lra.
Qed.

Section WithCast.

Variable astype : Conf.float_type -> R -> R.

(** X26: Both analytic transforms are even in the frequency: changing the sign
    of all frequencies of both axes gives the same array. *)
Theorem analytic_ft_even (g : Conf.globals) (width_x width_y size : R)
    (unit_x unit_y : list R) :
  OLPF_analytic_ft astype g width_x width_y (map Ropp unit_x) (map Ropp unit_y)
  = OLPF_analytic_ft astype g width_x width_y unit_x unit_y
  /\ PixelAperture_analytic_ft astype g size (map Ropp unit_x) (map Ropp unit_y)
     = PixelAperture_analytic_ft astype g size unit_x unit_y.
Proof.
  unfold OLPF_analytic_ft, PixelAperture_analytic_ft, meshgrid.
  rewrite !map_map. split.
  - apply map_ext. intros y. rewrite !map_map. apply map_ext. intros x.
    f_equal.
    replace (2 * - x * width_x / 1000) with (- (2 * x * width_x / 1000))
      by (unfold Rdiv; ring).
    replace (2 * - y * width_y / 1000) with (- (2 * y * width_y / 1000))
      by (unfold Rdiv; ring).
    now rewrite !cos_neg.
  - apply map_ext. intros y. rewrite !map_map. apply map_ext. intros x.
    f_equal.
    replace (- x * size / 1000) with (- (x * size / 1000)) by (unfold Rdiv; ring).
    replace (- y * size / 1000) with (- (y * size / 1000)) by (unfold Rdiv; ring).
    now rewrite !sinc_neg.
Qed.


End WithCast.


End AnalyticFacts.

(** * The transfer function of a PSF: shape, range and slices *)

Section FromPsfMore.

Import Otf.

Local Open Scope R_scope.

Lemma length_fftshift1 {A : Type} (l : list A) : length (fftshift1 l) = length l.
Proof.
  unfold fftshift1. rewrite length_app, length_skipn, length_firstn.
  assert (length l / 2 <= length l)%nat by (apply Nat.Div0.div_le_upper_bound; lia).
  lia.
Qed.

Lemma In_fftshift1 {A : Type} (x : A) (l : list A) :
  In x (fftshift1 l) -> In x l.
Proof.
  unfold fftshift1. intros H. apply in_app_or in H.
  rewrite <- (firstn_skipn (length l - length l / 2) l).
  apply in_or_app. tauto.
Qed.

Lemma Forall_fftshift1 {A : Type} (P : A -> Prop) (l : list A) :
  Forall P l -> Forall P (fftshift1 l).
Proof.
  rewrite !Forall_forall. intros H x Hx. apply H. now apply In_fftshift1.
Qed.

Lemma Forall_fftshift {A : Type} (P : list A -> Prop) (a : list (list A)) :
  Forall (fun row => P (fftshift1 row)) a -> Forall P (fftshift a).
Proof.
  intros H. unfold fftshift. apply Forall_fftshift1. now apply Forall_map.
Qed.

(** The spectrum of an [n] by [n] array, [n >= 1]. *)
Lemma fft2_square (a : list (list R)) (n : nat) :
  (0 < n)%nat -> length a = n -> Forall (fun row => length row = n) a ->
  fft2 a = Ok (map (fun k => map (fun l => dft2_entry a k l) (seq 0 n)) (seq 0 n)).
Proof.
  intros Hn Hl Hr. unfold fft2, nrows.
  assert (Hc : ncols a = n).
  { destruct a as [|r a]; [simpl in Hl; lia|]. now inversion Hr. }
  rewrite Hl, Hc. destruct n; [lia|]. reflexivity.
Qed.

(** [from_psf] on a well-formed PSF, written out. *)
Lemma from_psf_explicit (psf : PSF) (n : nat) :
  (0 < n)%nat ->
  length (psf_data psf) = n ->
  Forall (fun row => length row = n) (psf_data psf) ->
  psf_center psf = Z.of_nat (n / 2) ->
  from_psf psf
  = Ok (MTF_init
          (map (map (fun x => np_div x (Rabs (total (psf_data psf)))))
               (map (map Cabs)
                    (fftshift (map (fun k => map (fun l => dft2_entry (psf_data psf) k l)
                                                 (seq 0 n))
                                   (seq 0 n)))))
          (forward_ft_unit (psf_sample_spacing psf) (psf_samples psf))).
Proof.
  intros Hn Hl Hr Hc. unfold from_psf.
  rewrite (fft2_square _ n Hn Hl Hr). cbn [rbind].
  assert (Hpeak : index2
                    (map (map Cabs)
                         (fftshift (map (fun k => map (fun l => dft2_entry (psf_data psf) k l)
                                                      (seq 0 n))
                                        (seq 0 n))))
                    (psf_center psf) (psf_center psf)
                  = Ok (Rabs (total (psf_data psf)))).
  { rewrite Hc, <- Cabs_real, <- dft2_entry_dc.
    apply index2_map. destruct n as [|n']; [lia|].
    rewrite <- !cons_seq. cbn [map].
    apply fftshift_center; cbn [length]; now rewrite !length_map, length_seq. }
  now rewrite Hpeak.
Qed.

Lemma Cabs_nonneg (z : C) : 0 <= Cabs z.
Proof. apply sqrt_pos. Qed.

Lemma sq_sum_nonneg (x y : R) : 0 <= x ^ 2 + y ^ 2.
Proof. apply Rplus_le_le_0_compat; apply pow2_ge_0. Qed.

Lemma Cabs_triangle (a b : C) : Cabs (Cadd a b) <= Cabs a + Cabs b.
Proof.
  destruct a as [a1 a2], b as [b1 b2]. unfold Cabs, Cadd. cbn [fst snd].
  pose proof (sqrt_pos (a1 ^ 2 + a2 ^ 2)) as HA.
  pose proof (sqrt_pos (b1 ^ 2 + b2 ^ 2)) as HB.
  apply Rsqr_incr_0; [|apply sqrt_pos|lra].
  rewrite Rsqr_sqrt by apply sq_sum_nonneg.
  pose proof (sqrt_cauchy a1 a2 b1 b2) as Hcs.
  pose proof (sqrt_sqrt (a1 ^ 2 + a2 ^ 2) (sq_sum_nonneg a1 a2)) as HA2.
  pose proof (sqrt_sqrt (b1 ^ 2 + b2 ^ 2) (sq_sum_nonneg b1 b2)) as HB2.
  replace (a1² + a2²) with (a1 ^ 2 + a2 ^ 2) in Hcs by (unfold Rsqr; ring).
  replace (b1² + b2²) with (b1 ^ 2 + b2 ^ 2) in Hcs by (unfold Rsqr; ring).
  set (A := sqrt (a1 ^ 2 + a2 ^ 2)) in *.
  set (B := sqrt (b1 ^ 2 + b2 ^ 2)) in *.
  unfold Rsqr.
  replace ((a1 + b1) ^ 2 + (a2 + b2) ^ 2)
    with (a1 ^ 2 + a2 ^ 2 + (b1 ^ 2 + b2 ^ 2) + 2 * (a1 * b1 + a2 * b2)) by ring.
  rewrite <- HA2, <- HB2. lra.
Qed.

Lemma Cabs_term (x t : R) : Cabs (Cscale x (Cexp_i t)) = Rabs x.
Proof.
  unfold Cabs, Cscale, Cexp_i. cbn [fst snd].
  replace ((x * cos t) ^ 2 + (x * sin t) ^ 2)
    with (Rsqr x * (Rsqr (sin t) + Rsqr (cos t))) by (unfold Rsqr; ring).
  rewrite sin2_cos2, Rmult_1_r. apply sqrt_Rsqr_abs.
Qed.

Lemma Cabs_Csum_le {A : Type} (f : A -> C) (g : A -> R) (l : list A) :
  (forall x, Cabs (f x) <= g x) -> Cabs (Csum (map f l)) <= Rsum (map g l).
Proof.
  intros H. induction l as [|x l IH]; cbn [map Csum Rsum fold_right].
  - unfold Cabs. cbn [fst snd]. replace (0 ^ 2 + 0 ^ 2) with 0 by ring.
    rewrite sqrt_0. lra.
  - fold (Csum (map f l)). fold (Rsum (map g l)).
    pose proof (Cabs_triangle (f x) (Csum (map f l))). specialize (H x). lra.
Qed.

Lemma map_snd_enumerate {A B : Type} (h : A -> B) (l : list A) :
  map (fun p => h (snd p)) (enumerate l) = map h l.
Proof.
  unfold enumerate. generalize 0%nat.
  induction l as [|x l IH]; intros s; [reflexivity|].
  cbn [length seq combine map snd]. now rewrite IH.
Qed.

(** No entry of the spectrum is larger in magnitude than the sum of the
    magnitudes of the samples. *)
Lemma dft2_entry_bound (a : list (list R)) (k l : nat) :
  Cabs (dft2_entry a k l) <= Rsum (map (fun row => Rsum (map Rabs row)) a).
Proof.
  unfold dft2_entry.
  rewrite <- (map_snd_enumerate (fun row => Rsum (map Rabs row)) a).
  apply Cabs_Csum_le. intros [m row]. cbn [snd].
  rewrite <- (map_snd_enumerate Rabs row).
  apply Cabs_Csum_le. intros [n x]. cbn [snd]. rewrite Cabs_term. lra.
Qed.

Lemma Rsum_abs_nonneg (row : list R) :
  Forall (fun x => 0 <= x) row -> Rsum (map Rabs row) = Rsum row.
Proof.
  induction 1 as [|x row Hx _ IH]; [reflexivity|].
  cbn [map Rsum fold_right]. fold (Rsum (map Rabs row)). fold (Rsum row).
  now rewrite IH, Rabs_right by lra.
Qed.

Lemma total_abs_nonneg (a : list (list R)) :
  Forall (Forall (fun x => 0 <= x)) a ->
  Rsum (map (fun row => Rsum (map Rabs row)) a) = total a.
Proof.
  unfold total. induction 1 as [|row a Hrow _ IH]; [reflexivity|].
  cbn [map Rsum fold_right]. f_equal; [now apply Rsum_abs_nonneg|exact IH].
Qed.

(** X12: For a PSF with [N] by [N] samples, [N >= 1], none of them negative and
    not all zero, and the centre at [floor(N/2)]: every value of the MTF
    that [from_psf] returns is a finite number between 0 and 1, and the
    MTF data is [N] by [N] like the PSF data. *)
Theorem from_psf_values_in_unit_range (psf : PSF) :
  (0 < psf_samples psf)%Z ->
  Py.len (psf_data psf) = psf_samples psf ->
  Forall (fun row => Py.len row = psf_samples psf) (psf_data psf) ->
  psf_center psf = (psf_samples psf / 2)%Z ->
  Forall (Forall (fun x => 0 <= x)) (psf_data psf) ->
  0 < total (psf_data psf) ->
  exists m,
    from_psf psf = Ok m
    /\ Py.len (mtf_data m) = psf_samples psf
    /\ Forall (fun row => Py.len row = psf_samples psf) (mtf_data m)
    /\ Forall (Forall (fun v => exists r, v = fin r /\ 0 <= r <= 1)) (mtf_data m).
Proof.
  intros HN Hrows Hcols Hc Hpos Htot.
  set (n := Z.to_nat (psf_samples psf)).
  assert (Hn : (0 < n)%nat) by (unfold n; lia).
  assert (Hl : length (psf_data psf) = n) by (unfold Py.len in Hrows; unfold n; lia).
  assert (Hr : Forall (fun row => length row = n) (psf_data psf)).
  { eapply Forall_impl; [|exact Hcols]. intros row Hrow. cbv beta in Hrow.
    unfold Py.len in Hrow. unfold n. lia. }
  assert (Hcn : psf_center psf = Z.of_nat (n / 2)).
  { rewrite Hc, Nat2Z.inj_div. f_equal. unfold n. lia. }
  rewrite (from_psf_explicit psf n Hn Hl Hr Hcn).
  eexists. split; [reflexivity|]. unfold MTF_init. cbn [mtf_data].
  rewrite (Rabs_right (total (psf_data psf))) by lra.
  split; [|split].
  - unfold Py.len, fftshift.
    rewrite !length_map, length_fftshift1, !length_map, length_seq. unfold n. lia.
  - apply Forall_map, Forall_map, Forall_fftshift, Forall_map, Forall_forall.
    intros k _. unfold Py.len.
    rewrite !length_map, length_fftshift1, length_map, length_seq. unfold n. lia.
  - apply Forall_map, Forall_map, Forall_fftshift, Forall_map, Forall_forall.
    intros k _. apply Forall_map, Forall_map, Forall_fftshift1, Forall_map, Forall_forall.
    intros l _.
    pose proof (dft2_entry_bound (psf_data psf) k l) as Hb.
    rewrite total_abs_nonneg in Hb by exact Hpos.
    pose proof (Cabs_nonneg (dft2_entry (psf_data psf) k l)) as H0.
    unfold np_div. destruct (Req_dec_T (total (psf_data psf)) 0); [lra|].
    eexists. split; [reflexivity|].
    assert (Hinv : 0 < / total (psf_data psf)) by now apply Rinv_0_lt_compat.
    unfold Rdiv. split.
    + apply Rmult_le_pos; lra.
    + apply (Rmult_le_reg_r (total (psf_data psf))); [exact Htot|].
      rewrite Rmult_assoc, Rinv_l, Rmult_1_r by lra. lra.
Qed.

Lemma from_psf_values_in_unit_range_witness :
  exists m,
    from_psf Inputs.psf_point = Ok m
    /\ Py.len (mtf_data m) = 2%Z
    /\ Forall (fun row => Py.len row = 2%Z) (mtf_data m)
    /\ Forall (Forall (fun v => exists r, v = fin r /\ 0 <= r <= 1)) (mtf_data m).
Proof.
  apply (from_psf_values_in_unit_range Inputs.psf_point).
  - reflexivity.
  - reflexivity.
  - repeat constructor.
  - reflexivity.
  - repeat (constructor; [repeat (constructor; [lra|]); constructor|]). constructor.
  - unfold total, Rsum. simpl. lra.
Defined.

Lemma column_entries {A : Type} (j : Z) (rows : list (list A)) :
  forall col, column j rows = Ok col ->
    length col = length rows
    /\ forall r, hd_error rows = Some r ->
                 exists x, hd_error col = Some x /\ Py.index r j = Ok x.
Proof.
  induction rows as [|r rows IH]; intros col H.
  - injection H as <-. split; [reflexivity|]. intros r Hr. discriminate Hr.
  - apply column_cons_inv in H. destruct H as (x & xs & Hx & Hxs & ->).
    destruct (IH xs Hxs) as [Hlen _]. split; [cbn [length]; now rewrite Hlen|].
    intros r' Hr'. injection Hr' as <-. now exists x.
Qed.

Lemma hd_error_slice {A : Type} (lo hi : Z) (l : list A) :
  (0 <= lo)%Z -> (lo < Py.bound (Py.len l) hi)%Z ->
  hd_error (Py.slice lo hi l) = nth_error l (Z.to_nat lo).
Proof.
  intros H0 H1. unfold Py.slice.
  pose proof (bound_range (Py.len l) hi (len_nonneg l)) as Hb.
  rewrite (bound_inside (Py.len l) lo) by lia.
  destruct (Z.to_nat (Py.bound (Py.len l) hi - lo)) as [|k] eqn:E; [lia|].
  rewrite <- hd_error_skipn.
  destruct (skipn (Z.to_nat lo) l); reflexivity.
Qed.

(** X13: The slices of the MTF of a PSF.  For a PSF with [N] by [N] samples
    that do not sum to zero and the centre at [floor(N/2)], [tan] and [sag]
    of the MTF that [from_psf] returns both hold [N - 1 - floor(N/2)]
    values; from 3 samples on the first value of each is the value at zero
    frequency, exactly 1; with 1 or 2 samples both slices are empty. *)
Theorem from_psf_slices (psf : PSF) :
  (0 < psf_samples psf)%Z ->
  Py.len (psf_data psf) = psf_samples psf ->
  Forall (fun row => Py.len row = psf_samples psf) (psf_data psf) ->
  psf_center psf = (psf_samples psf / 2)%Z ->
  total (psf_data psf) <> 0 ->
  exists m u t s,
    from_psf psf = Ok m
    /\ tan m = (Ok (u, t), m)
    /\ sag m = (Ok (u, s), m)
    /\ Py.len t = (psf_samples psf - 1 - psf_samples psf / 2)%Z
    /\ Py.len s = (psf_samples psf - 1 - psf_samples psf / 2)%Z
    /\ ((3 <= psf_samples psf)%Z ->
        hd_error t = Some (fin 1) /\ hd_error s = Some (fin 1))
    /\ ((psf_samples psf <= 2)%Z -> t = [] /\ s = []).
Proof.
  intros HN Hrows Hcols Hc Htot.
  set (N := psf_samples psf) in *.
  set (n := Z.to_nat N).
  assert (Hn : (0 < n)%nat) by (unfold n; lia).
  assert (HnZ : Z.of_nat n = N) by (unfold n; lia).
  assert (Hl : length (psf_data psf) = n) by (unfold Py.len in Hrows; lia).
  assert (Hr : Forall (fun row => length row = n) (psf_data psf)).
  { eapply Forall_impl; [|exact Hcols]. intros row Hrow. cbv beta in Hrow.
    unfold Py.len in Hrow. lia. }
  assert (Hcn : psf_center psf = Z.of_nat (n / 2)).
  { rewrite Hc, Nat2Z.inj_div. f_equal. lia. }
  destruct (from_psf_center psf HN Hrows Hcols Hc) as (m & Hm & Hmc & Hv).
  assert (Hshape : Py.len (mtf_data m) = N
                   /\ Forall (fun row => Py.len row = N) (mtf_data m)).
  { rewrite (from_psf_explicit psf n Hn Hl Hr Hcn) in Hm. injection Hm as <-.
    unfold MTF_init. cbn [mtf_data]. split.
    - unfold Py.len, fftshift.
      rewrite !length_map, length_fftshift1, !length_map, length_seq. lia.
    - apply Forall_map, Forall_map, Forall_fftshift, Forall_map, Forall_forall.
      intros k _. unfold Py.len.
      rewrite !length_map, length_fftshift1, length_map, length_seq. lia. }
  destruct Hshape as [Hdl Hdr].
  rewrite np_div_self in Hv by (now apply Rabs_no_R0).
  rewrite Hmc, Hc in Hv. fold N in Hv.
  set (c := (N / 2)%Z) in *.
  assert (Hcr : (0 <= c < N)%Z).
  { unfold c. split; [apply Z.div_pos; lia|apply Z.div_lt_upper_bound; lia]. }
  unfold index2 in Hv.
  destruct (Py.index (mtf_data m) c) as [row|] eqn:Erow; [|discriminate].
  cbn [rbind] in Hv.
  assert (Hrowlen : Py.len row = N).
  { destruct (index_in_range (mtf_data m) c) as (row' & Hrow' & Hin); [lia|].
    rewrite Erow in Hrow'. injection Hrow' as <-.
    rewrite Forall_forall in Hdr. now apply Hdr. }
  assert (Hax : in_axis (Z.of_nat (ncols (mtf_data m))) c = true).
  { unfold ncols. destruct (mtf_data m) as [|r0 rs] eqn:E.
    - unfold Py.len in Hdl. simpl in Hdl. lia.
    - inversion Hdr as [|? ? Hr0 _]. unfold Py.len in Hr0. rewrite Hr0.
      unfold in_axis. destruct (Z.ltb_spec c 0); [lia|].
      apply andb_true_iff. split; [apply Z.leb_le|apply Z.ltb_lt]; lia. }
  destruct (column_total c (Py.slice c (-1) (mtf_data m))) as [s Hs].
  { apply Forall_slice. eapply Forall_impl; [|exact Hdr].
    intros r0 Hr0. cbv beta in Hr0. lia. }
  destruct (column_entries c _ s Hs) as [Hslen Hshd].
  assert (Hbound : forall l : list npfloat, Py.len l = N ->
             Py.bound (Py.len l) (-1) = (N - 1)%Z).
  { intros l0 Hl0. rewrite Hl0. unfold Py.bound. change (-1 <? 0)%Z with true.
    cbv iota. lia. }
  assert (Hbound' : Py.bound (Py.len (mtf_data m)) (-1) = (N - 1)%Z).
  { rewrite Hdl. unfold Py.bound. change (-1 <? 0)%Z with true. cbv iota. lia. }
  exists m, (Py.slice c (-1) (mtf_unit m)), (Py.slice c (-1) row), s.
  split; [exact Hm|].
  unfold tan, sag, column_slice. rewrite Hmc, Hc. fold N c.
  rewrite Erow, Hax, Hs. cbn [rbind].
  split; [reflexivity|]. split; [reflexivity|].
  split; [|split; [|split]].
  - rewrite len_slice, (Hbound row Hrowlen), bound_inside by lia. lia.
  - unfold Py.len at 1. rewrite Hslen. fold (Py.len (Py.slice c (-1) (mtf_data m))).
    rewrite len_slice, Hbound', bound_inside by lia. lia.
  - intros H3.
    assert (Hc2 : (c < N - 1)%Z).
    { unfold c. apply Z.div_lt_upper_bound; lia. }
    split.
    + rewrite hd_error_slice by (rewrite ?(Hbound row Hrowlen); lia).
      revert Hv. unfold Py.index.
      destruct (Z.ltb_spec c 0); [lia|]. destruct (Z.ltb_spec c 0); [lia|].
      destruct (nth_error row (Z.to_nat c)); [|discriminate].
      intros Hv. now injection Hv as ->.
    + destruct (Hshd row) as (x & Hx & Hxv).
      * rewrite hd_error_slice by (rewrite ?Hbound'; lia).
        revert Erow. unfold Py.index.
        destruct (Z.ltb_spec c 0); [lia|]. destruct (Z.ltb_spec c 0); [lia|].
        destruct (nth_error (mtf_data m) (Z.to_nat c)); [|discriminate].
        intros Erow. now injection Erow as ->.
      * rewrite Hx. rewrite Hv in Hxv. now injection Hxv as ->.
  - intros H2.
    assert (Hc2 : (N - 1 - c <= 0)%Z).
    { unfold c. assert (N = 1 \/ N = 2)%Z as [-> | ->] by lia; reflexivity. }
    split.
    + apply length_zero_iff_nil.
      pose proof (len_slice c (-1) row) as Hls.
      rewrite (Hbound row Hrowlen), bound_inside in Hls by lia.
      unfold Py.len in Hls. lia.
    + apply length_zero_iff_nil. rewrite Hslen.
      pose proof (len_slice c (-1) (mtf_data m)) as Hls.
      rewrite Hbound', bound_inside in Hls by lia.
      unfold Py.len in Hls. lia.
Qed.

Lemma from_psf_slices_witness :
  exists m u t s,
    from_psf Inputs.psf_point = Ok m
    /\ tan m = (Ok (u, t), m)
    /\ sag m = (Ok (u, s), m)
    /\ Py.len t = (2 - 1 - 2 / 2)%Z
    /\ Py.len s = (2 - 1 - 2 / 2)%Z
    /\ ((3 <= 2)%Z ->
        hd_error t = Some (fin 1) /\ hd_error s = Some (fin 1))
    /\ ((2 <= 2)%Z -> t = [] /\ s = []).
Proof.
  apply (from_psf_slices Inputs.psf_point).
  - reflexivity.
  - reflexivity.
  - repeat constructor.
  - reflexivity.
  - unfold total, Rsum. simpl. lra.
Defined.

(** X14: When [from_psf] fails: PSF data without rows or without columns raises
    [ValueError] (the transform has no data points); for [N] by [N] data a
    centre index outside [-N .. N-1] raises [IndexError]. *)
Theorem from_psf_rejects (psf : PSF) :
  (psf_data psf = [] \/ (exists rest, psf_data psf = [] :: rest) ->
   from_psf psf = Raise ValueError)
  /\ ((0 < psf_samples psf)%Z ->
      Py.len (psf_data psf) = psf_samples psf ->
      Forall (fun row => Py.len row = psf_samples psf) (psf_data psf) ->
      (psf_samples psf <= psf_center psf \/ psf_center psf < - psf_samples psf)%Z ->
      from_psf psf = Raise IndexError).
Proof.
  split.
  - unfold from_psf, fft2. intros [-> | [rest ->]]; reflexivity.
  - intros HN Hrows Hcols Hout.
    set (n := Z.to_nat (psf_samples psf)).
    assert (Hn : (0 < n)%nat) by (unfold n; lia).
    assert (Hl : length (psf_data psf) = n)
      by (unfold Py.len in Hrows; unfold n; lia).
    assert (Hr : Forall (fun row => length row = n) (psf_data psf)).
    { eapply Forall_impl; [|exact Hcols]. intros row Hrow. cbv beta in Hrow.
      unfold Py.len in Hrow. unfold n. lia. }
    unfold from_psf. rewrite (fft2_square _ n Hn Hl Hr). cbn [rbind].
    unfold index2, Py.index, Py.len, fftshift.
    rewrite !length_map, length_fftshift1, !length_map, length_seq.
    assert (HnZ : Z.of_nat n = psf_samples psf) by (unfold n; lia).
    rewrite HnZ.
    destruct (Z.ltb_spec (psf_center psf) 0).
    + destruct (Z.ltb_spec (psf_center psf + psf_samples psf) 0); [reflexivity|lia].
    + destruct (Z.ltb_spec (psf_center psf) 0); [lia|].
      rewrite (proj2 (nth_error_None _ _)); [reflexivity|].
      rewrite !length_map, length_fftshift1, !length_map, length_seq. lia.
Qed.

Lemma from_psf_rejects_witness :
  from_psf (mkPSF [] 1 0 0) = Raise ValueError.
Proof.
  apply (proj1 (from_psf_rejects (mkPSF [] 1 0 0))). now left.
Defined.

End FromPsfMore.
